(** * nova_oar_mcp: the job-request compiler and the remote-execution contract

    A shallow embedding of [src/nova_oar_mcp.py].  Python [str] values are
    Rocq strings whose characters are the code points below 256; on that
    range [\d] is exactly [0-9], and the white space removed by [str.strip]
    is the set listed in [isspace].  Every [await] is a sequential call, so
    the coroutines are ordinary computations in a state-and-exception monad
    whose state is the outside world together with the log of the processes
    that were started. *)

From Stdlib Require Import ZArith DecimalString Ascii String.
From stdpp Require Import base option list sorting gmap strings.

Open Scope string_scope.

(** ** Python string primitives *)

Module Py.

Definition LF : ascii := "010"%char.
Definition TAB : ascii := "009"%char.
Definition CR : ascii := "013"%char.
Definition DQUOTE : ascii := "034"%char.
Definition SQUOTE : ascii := "039"%char.
Definition BACKSLASH : ascii := "092"%char.

Definition code (c : ascii) : N := N_of_ascii c.

(** [str.isspace] on one character (also what [str.strip()] removes). *)
Definition isspace (c : ascii) : bool :=
  let n := code c in
  ((9 <=? n) && (n <=? 13) || (28 <=? n) && (n <=? 32)
   || (n =? 133) || (n =? 160))%N.

(** The class [\d] of the [re] module. *)
Definition isdecimal (c : ascii) : bool :=
  let n := code c in ((48 <=? n) && (n <=? 57))%N.

Fixpoint lstrip (s : string) : string :=
  match s with
  | "" => ""
  | String c s' => if isspace c then lstrip s' else s
  end.

Fixpoint rstrip (s : string) : string :=
  match s with
  | "" => ""
  | String c s' =>
      match rstrip s' with
      | "" => if isspace c then "" else String c ""
      | r => String c r
      end
  end.

Definition strip (s : string) : string := rstrip (lstrip s).

(** [c in s] for a one-character needle. *)
Fixpoint contains (c : ascii) (s : string) : bool :=
  match s with
  | "" => false
  | String x s' => if Ascii.eqb x c then true else contains c s'
  end.

(** [s.split(sep)] for a one-character separator: never the empty list. *)
Fixpoint split (sep : ascii) (s : string) : list string :=
  match s with
  | "" => [""]
  | String c s' =>
      if Ascii.eqb c sep then "" :: split sep s'
      else match split sep s' with
           | [] => [String c ""]
           | x :: xs => String c x :: xs
           end
  end.

(** [sep.join(parts)]. *)
Fixpoint join (sep : string) (parts : list string) : string :=
  match parts with
  | [] => ""
  | [x] => x
  | x :: xs => x +:+ sep +:+ join sep xs
  end.

(** [str(n)] for an [int]. *)
Definition str_int (n : Z) : string := NilZero.string_of_int (Z.to_int n).

(** Truth value of a string, of a list and of an optional argument. *)
Definition truthy_str (s : string) : bool :=
  match s with "" => false | _ => true end.

Definition truthy_list {A} (l : list A) : bool :=
  match l with [] => false | _ => true end.

(** *** [repr] of a string and of a list of strings *)

Definition hex_digit (n : N) : ascii :=
  ascii_of_N (if (n <? 10)%N then 48 + n else 87 + n).

Definition isprintable (c : ascii) : bool :=
  let n := code c in
  ((32 <=? n) && (n <? 127) || (161 <=? n) && negb (n =? 173))%N.

Definition repr_char (quote c : ascii) : string :=
  if Ascii.eqb c quote || Ascii.eqb c BACKSLASH
  then String BACKSLASH (String c "")
  else if Ascii.eqb c TAB then String BACKSLASH "t"
  else if Ascii.eqb c LF then String BACKSLASH "n"
  else if Ascii.eqb c CR then String BACKSLASH "r"
  else if isprintable c then String c ""
  else String BACKSLASH
         (String "x" (String (hex_digit (code c / 16))
                        (String (hex_digit (code c mod 16)) ""))).

Fixpoint repr_body (quote : ascii) (s : string) : string :=
  match s with
  | "" => ""
  | String c s' => repr_char quote c +:+ repr_body quote s'
  end.

Definition repr_quote (s : string) : ascii :=
  if contains SQUOTE s && negb (contains DQUOTE s) then DQUOTE else SQUOTE.

Definition repr_str (s : string) : string :=
  let q := repr_quote s in
  String q (repr_body q s +:+ String q "").

Definition repr_list (l : list string) : string :=
  "[" +:+ join ", " (repr_str <$> l) +:+ "]".

End Py.

(** ** The two regular expressions of the server *)

Module Re.
Import Py.

(** [$] without [re.MULTILINE]: the end of the text, or the position just
    before a line feed that ends the text. *)
Definition at_dollar (rest : string) : bool :=
  match rest with
  | "" => true
  | String c "" => Ascii.eqb c LF
  | _ => false
  end.

(** [:\d{2}:\d{2}$] at the head of [s]. *)
Definition match_mmss (s : string) : bool :=
  match s with
  | String c1 (String m1 (String m2 (String c2 (String s1 (String s2 rest))))) =>
      Ascii.eqb c1 ":" && isdecimal m1 && isdecimal m2
      && Ascii.eqb c2 ":" && isdecimal s1 && isdecimal s2 && at_dollar rest
  | _ => false
  end.

(** [re.match(r'^\d{1,2}:\d{2}:\d{2}$', s)] finds a match.  The greedy
    [\d{1,2}] takes two digits first and falls back to one. *)
Definition match_hms (s : string) : bool :=
  match s with
  | "" => false
  | String h1 r =>
      isdecimal h1
      && (match r with
          | String h2 r' => isdecimal h2 && match_mmss r'
          | "" => false
          end
          || match_mmss r)
  end.

(** The longest prefix of decimal digits: what a greedy [\d+] takes when
    nothing follows it in the pattern. *)
Fixpoint digits_prefix (s : string) : string :=
  match s with
  | "" => ""
  | String c s' => if isdecimal c then String c (digits_prefix s') else ""
  end.

Fixpoint strip_literal (lit s : string) : option string :=
  match lit, s with
  | "", _ => Some s
  | String a lit', String b s' =>
      if Ascii.eqb a b then strip_literal lit' s' else None
  | String _ _, "" => None
  end.

(** [OAR_JOB_ID=(\d+)] anchored at the head of [s]: group 1. *)
Definition job_id_here (s : string) : option string :=
  match strip_literal "OAR_JOB_ID=" s with
  | Some rest =>
      match digits_prefix rest with
      | "" => None
      | d => Some d
      end
  | None => None
  end.

(** [re.search(r'OAR_JOB_ID=(\d+)', s)]: group 1 of the leftmost match. *)
Fixpoint search_job_id (s : string) : option string :=
  match job_id_here s with
  | Some d => Some d
  | None =>
      match s with
      | "" => None
      | String _ s' => search_job_id s'
      end
  end.

End Re.

(** ** Exceptions, processes and the monad of the coroutines *)

Inductive exn : Type :=
  | ValueError (msg : string)
  | JSONDecodeError (msg : string)
  | CalledProcessError (returncode : Z) (stderr : string)
  | TimeoutExpired.

Inductive res (A : Type) : Type :=
  | Return (a : A)
  | Raise (e : exn).
Arguments Return {A} a.
Arguments Raise {A} e.

(** The keyword arguments of one [subprocess.run] call. *)
Record invocation : Type := Invocation {
  args : list string;
  capture_output : bool;
  text : bool;
  check : bool;
  timeout : Z
}.

(** What the started process did within the time it was given. *)
Inductive proc_result : Type :=
  | Exited (returncode : Z) (stdout stderr : string)
  | TimedOut.

(** The values of the [Dict[str, Any]] results that the server builds. *)
Inductive value : Type :=
  | VStr (s : string)
  | VEmptyDict.

Section Server.

Context {world : Type}.

(** Starting a process: the only contact with the outside. *)
Variable spawn : world -> invocation -> proc_result * world.

(** [os.environ.get("CLUSTER_HOSTNAME", "cluster")], read once. *)
Variable CLUSTER_HOSTNAME : string.

(** [json.loads]: the parsed document, or the text of the decode error. *)
Context {json : Type}.
Variable json_loads : string -> string + json.

Record state : Type := State {
  env : world;
  log : list invocation
}.

Definition M (A : Type) : Type := state -> res A * state.

Definition ret {A} (a : A) : M A := fun st => (Return a, st).
Definition raise {A} (e : exn) : M A := fun st => (Raise e, st).

Definition bind {A B} (m : M A) (k : A -> M B) : M B :=
  fun st =>
    match m st with
    | (Return a, st') => k a st'
    | (Raise e, st') => (Raise e, st')
    end.

(** [try: body  except ...:] the handler picks the first clause that
    matches, or none, and then the exception goes on. *)
Definition try_except {A} (body : M A) (handler : exn -> option (M A)) : M A :=
  fun st =>
    match body st with
    | (Return a, st') => (Return a, st')
    | (Raise e, st') =>
        match handler e with
        | Some h => h st'
        | None => (Raise e, st')
        end
    end.

(** The clause [except ValueError as e:], given what it does with [str(e)];
    [json.JSONDecodeError] is a subclass of [ValueError]. *)
Definition except_ValueError {A} (h : string -> M A) (e : exn) : option (M A) :=
  match e with
  | ValueError msg | JSONDecodeError msg => Some (h msg)
  | CalledProcessError _ _ | TimeoutExpired => None
  end.

Notation "'await' x <~ m 'in' k" := (bind m (fun x => k))
  (at level 10, x name, m at level 100, k at level 200,
   format "'[v' 'await'  x  <~  m  'in' '/' k ']'").

(** The results of the structured queries: the parsed document as it is,
    or a dictionary built by the server. *)
Inductive dict : Type :=
  | Parsed (j : json)
  | Built (entries : list (string * value)).

(** [json.loads(output)] as a computation. *)
Definition loads (output : string) : M dict :=
  match json_loads output with
  | inr j => ret (Parsed j)
  | inl msg => raise (JSONDecodeError msg)
  end.

(** [subprocess.run(args, capture_output=True, text=True, check=.., timeout=..)]:
    the standard output of the process. *)
Definition subprocess_run (inv : invocation) : M string :=
  fun st =>
    let '(r, w) := spawn (env st) inv in
    let st' := {| env := w; log := log st ++ [inv] |} in
    match r with
    | Exited rc out err =>
        if check inv && negb (rc =? 0)%Z
        then (Raise (CalledProcessError rc err), st')
        else (Return out, st')
    | TimedOut => (Raise TimeoutExpired, st')
    end.

(** ** The executor *)

Definition ssh_invocation (command : string) : invocation :=
  {| args := ["ssh"; CLUSTER_HOSTNAME; command];
     capture_output := true; text := true; check := true; timeout := 30 |}.

Definition run_ssh_command (command : string) : M string :=
  try_except
    (await stdout <~ subprocess_run (ssh_invocation command) in
     ret (Py.strip stdout))
    (fun e =>
       match e with
       | CalledProcessError _ stderr =>
           Some (raise (ValueError ("Command failed: " +:+ Py.strip stderr)))
       | TimeoutExpired => Some (raise (ValueError "Command timed out"))
       | _ => None
       end).

(** ** The cluster topology *)

Definition list_machines : M (list string) :=
  await output <~ run_ssh_command "oarnodes -l" in
  ret (Py.strip <$> filter (fun line => Py.truthy_str (Py.strip line) = true)
                      (Py.split Py.LF output)).

(** The dictionary of the clause [except json.JSONDecodeError as e] of
    [list_machines_detailed], [get_job_status] and [list_all_jobs].  That
    clause can only be entered from [json.loads(output)], the one call that
    raises this exception, so it is written around that call, where
    [output] is bound; what it does returns, so the clause
    [except ValueError] after it never sees any of it. *)
Definition parse_error (msg output : string) : dict :=
  Built [("error", VStr ("Failed to parse JSON output: " +:+ msg));
         ("raw_output", VStr output)].

Definition list_machines_detailed : M dict :=
  await output <~ run_ssh_command "oarnodes -J" in
  try_except (loads output)
    (fun e =>
       match e with
       | JSONDecodeError msg => Some (ret (parse_error msg output))
       | _ => None
       end).

(** The loop of [list_clusters]: the set of the names in front of the first
    ['-'] of the machines that have one. *)
Fixpoint cluster_set (machines : list string) (clusters : gset string)
  : gset string :=
  match machines with
  | [] => clusters
  | machine :: rest =>
      if Py.contains "-" machine
      then cluster_set rest (clusters ∪ {[ default "" (head (Py.split "-" machine)) ]})
      else cluster_set rest clusters
  end.

(** The order of [sorted] on strings: code point by code point. *)
Definition str_le (a b : string) : Prop := String.leb a b = true.

#[global] Instance str_le_dec a b : Decision (str_le a b).
Proof. unfold str_le. apply _. Defined.

Definition sorted (l : list string) : list string := merge_sort str_le l.

Definition clusters_of (machines : list string) : list string :=
  sorted (elements (cluster_set machines ∅)).

Definition list_clusters : M (list string) :=
  await machines <~ list_machines in
  ret (clusters_of machines).

(** ** Operations on one job *)

Definition delete_job (job_id : Z) : M string :=
  try_except
    (await output <~ run_ssh_command ("oardel " +:+ Py.str_int job_id) in
     ret ("Job " +:+ Py.str_int job_id +:+ " deletion requested: " +:+ output))
    (except_ValueError (fun e =>
       ret ("Failed to delete job " +:+ Py.str_int job_id +:+ ": " +:+ e))).

Definition extend_walltime (job_id : Z) (additional_time : string) (force : bool)
  : M string :=
  try_except
    (if negb (Re.match_hms additional_time)
     then ret "Invalid time format. Use hh:mm:ss (e.g., '1:30:00')"
     else
       let command := "oarwalltime " +:+ Py.str_int job_id +:+ " +" +:+ additional_time in
       let command := if force then command +:+ " --force" else command in
       await output <~ run_ssh_command command in
       ret ("Extended walltime for job " +:+ Py.str_int job_id +:+ ": " +:+ output))
    (except_ValueError (fun e =>
       ret ("Failed to extend walltime for job " +:+ Py.str_int job_id +:+ ": " +:+ e))).

Definition get_walltime_status (job_id : Z) : M string :=
  try_except
    (await output <~ run_ssh_command ("oarwalltime " +:+ Py.str_int job_id) in
     ret ("Walltime status for job " +:+ Py.str_int job_id +:+ ": " +:+ output))
    (except_ValueError (fun e =>
       ret ("Failed to get walltime status for job " +:+ Py.str_int job_id +:+ ": " +:+ e))).

(** ** Job creation *)

Definition truthy_clusters (clusters : option (list string)) : bool :=
  match clusters with
  | Some cs => Py.truthy_list cs
  | None => false
  end.

Definition cluster_term (c : string) : string := "cluster='" +:+ c +:+ "'".

(** [cluster_part]: one name, or the disjunction in brackets. *)
Definition cluster_part (clusters : list string) : string :=
  match clusters with
  | [c] => "{cluster='" +:+ c +:+ "'}"
  | _ => "{(" +:+ Py.join " OR " (cluster_term <$> clusters) +:+ ")}"
  end.

Definition nodes_walltime (nodes : Z) (walltime : string) : string :=
  "nodes=" +:+ Py.str_int nodes +:+ ",walltime=" +:+ walltime.

(** [resource_string], once the clusters have passed the check. *)
Definition resource_string (clusters : option (list string)) (nodes : Z)
    (walltime : string) : string :=
  match clusters with
  | Some cs =>
      if Py.truthy_list cs
      then cluster_part cs +:+ "/" +:+ nodes_walltime nodes walltime
      else nodes_walltime nodes walltime
  | None => nodes_walltime nodes walltime
  end.

Definition name_args (name : option string) : list string :=
  match name with
  | Some n => if Py.truthy_str n then ["-n"; n] else []
  | None => []
  end.

Definition best_effort_args (best_effort : bool) : list string :=
  if best_effort then ["-t"; "besteffort"] else [].

Definition oarsub_args (resource : string) (name : option string)
    (best_effort : bool) (command : string) : list string :=
  ["oarsub"; "-l"; resource] ++ name_args name
    ++ best_effort_args best_effort ++ [command].

Definition double_quoted (s : string) : string :=
  String Py.DQUOTE (s +:+ String Py.DQUOTE "").

Definition single_quoted (s : string) : string := "'" +:+ s +:+ "'".

Definition quote_if_space (arg : string) : string :=
  if Py.contains " " arg then single_quoted arg else arg.

(** [full_command]: the line handed to the remote shell. *)
Definition full_command (clusters : option (list string)) (resource : string)
    (name : option string) (best_effort : bool) (command : string) : string :=
  if truthy_clusters clusters
  then Py.join " " (["oarsub"; "-l"; double_quoted resource] ++ name_args name
                      ++ best_effort_args best_effort ++ [single_quoted command])
  else Py.join " " (quote_if_space <$> oarsub_args resource name best_effort command).

(** What [create_job] answers once the submission has printed [output]. *)
Definition submission_report (output : string) : string :=
  match Re.search_job_id output with
  | Some job_id =>
      "Job created successfully with ID: " +:+ job_id
        +:+ String Py.LF ("Output: " +:+ output)
  | None => "Job submission completed: " +:+ output
  end.

Definition invalid_clusters (clusters available : list string) : list string :=
  filter (fun c => c ∉ available) clusters.

(** The cluster check: [inl] is the text returned at once, [inr] the
    resource string with which the function goes on. *)
Definition check_clusters (clusters : option (list string)) (nodes : Z)
    (walltime : string) : M (string + string) :=
  if truthy_clusters clusters then
    await available_clusters <~ list_clusters in
    let invalid := invalid_clusters (default [] clusters) available_clusters in
    if Py.truthy_list invalid
    then ret (inl ("Invalid clusters: " +:+ Py.repr_list invalid
                     +:+ ". Available: " +:+ Py.repr_list available_clusters))
    else ret (inr (resource_string clusters nodes walltime))
  else ret (inr (resource_string clusters nodes walltime)).

Definition create_job (clusters : option (list string)) (nodes : Z)
    (walltime command : string) (name : option string) (best_effort : bool)
  : M string :=
  try_except
    (if negb (Re.match_hms walltime)
     then ret "Invalid walltime format. Use hh:mm:ss (e.g., '1:00:00')"
     else
       await checked <~ check_clusters clusters nodes walltime in
       match checked with
       | inl rejection => ret rejection
       | inr resource =>
           await output <~ run_ssh_command
                             (full_command clusters resource name best_effort command) in
           ret (submission_report output)
       end)
    (except_ValueError (fun e => ret ("Failed to create job: " +:+ e))).

(** The request gets past the cluster check from [st] to [st1]: it names a
    cluster and the inventory, read from [st], holds every name asked for;
    or it names none, and nothing is read. *)
Definition clusters_known (clusters : option (list string)) (st st1 : state)
  : Prop :=
  if truthy_clusters clusters
  then exists available,
         list_clusters st = (Return available, st1)
         /\ forall c, c ∈ default [] clusters -> c ∈ available
  else st1 = st.

(** ** Structured queries *)

Definition get_job_status (job_id : Z) : M dict :=
  try_except
    (await output <~ run_ssh_command ("oarstat -j " +:+ Py.str_int job_id +:+ " -J") in
     try_except (loads output)
       (fun e => match e with
                 | JSONDecodeError msg => Some (ret (parse_error msg output))
                 | _ => None
                 end))
    (except_ValueError (fun e =>
       ret (Built [("error", VStr ("Failed to get job status for "
                                     +:+ Py.str_int job_id +:+ ": " +:+ e))]))).

Definition list_all_jobs : M dict :=
  try_except
    (await output <~ run_ssh_command "oarstat -J" in
     try_except (loads output)
       (fun e => match e with
                 | JSONDecodeError msg => Some (ret (parse_error msg output))
                 | _ => None
                 end))
    (except_ValueError (fun e =>
       ret (Built [("error", VStr ("Failed to list jobs: " +:+ e))]))).

Definition list_my_jobs : M dict :=
  try_except
    (await regular_output <~ run_ssh_command "oarstat -u" in
     if negb (Py.truthy_str (Py.strip regular_output))
     then ret (Built [("message", VStr "No jobs found for current user");
                      ("jobs", VEmptyDict)])
     else
       await output <~ run_ssh_command "oarstat -u -J" in
       try_except (loads output)
         (fun e =>
            match e with
            | JSONDecodeError msg =>
                Some (try_except
                        (await regular_output <~ run_ssh_command "oarstat -u" in
                         ret (Built [("message", VStr "Jobs for current user (text format due to JSON parsing error)");
                                     ("output", VStr regular_output)]))
                        (except_ValueError (fun _ =>
                           ret (Built [("error", VStr ("Failed to parse JSON output and fallback failed: " +:+ msg));
                                       ("raw_output", VStr output)]))))
            | _ => None
            end))
    (except_ValueError (fun e =>
       ret (Built [("error", VStr ("Failed to list jobs for current user: " +:+ e))]))).

End Server.

(** ** Test doubles: a transport that replays recorded results *)

Module Fake.

(** Each started process takes the next recorded result; when the record is
    used up the process hangs until the time limit. *)
Definition replay (w : list proc_result) (_ : invocation)
  : proc_result * list proc_result :=
  match w with
  | [] => (TimedOut, [])
  | r :: w' => (r, w')
  end.

Definition boot (w : list proc_result) : state :=
  {| env := w; log := [] |}.

Definition ok (stdout : string) : proc_result := Exited 0 stdout "".

(** A parser that accepts the empty object only. *)
Definition loads_braces (s : string) : string + unit :=
  if String.eqb s "{}" then inr tt
  else inl "Expecting value: line 1 column 1 (char 0)".

Definition host : string := "cluster".

Definition nodes_listing : string :=
  "alakazam-1" +:+ String Py.LF ("alakazam-2" +:+ String Py.LF
    ("bulbasaur-1" +:+ String Py.LF "frontend")).

End Fake.

(** ** The specification's own wording, to compare the code with *)

Module Spec.
Import Py.

Fixpoint all_decimal (s : string) : bool :=
  match s with
  | "" => true
  | String c s' => isdecimal c && all_decimal s'
  end.

Fixpoint all_space (s : string) : bool :=
  match s with
  | "" => true
  | String c s' => isspace c && all_space s'
  end.

Definition first_char (s : string) : option ascii :=
  match s with
  | "" => None
  | String c _ => Some c
  end.

Fixpoint last_char (s : string) : option ascii :=
  match s with
  | "" => None
  | String c "" => Some c
  | String _ s' => last_char s'
  end.

(** [t] is [s] without its leading and trailing white space. *)
Definition trimmed_of (s t : string) : Prop :=
  (exists before after,
     s = before +:+ t +:+ after
     /\ all_space before = true /\ all_space after = true)
  /\ (forall c, first_char t = Some c -> isspace c = false)
  /\ (forall c, last_char t = Some c -> isspace c = false).

(** The duration grammar [HH:MM:SS], hours of one or two digits: three
    fields of digits between colons, and nothing else. *)
Definition duration_grammar (s : string) : bool :=
  match split ":" s with
  | [hh; mm; ss] =>
      all_decimal hh && all_decimal mm && all_decimal ss
      && (Nat.eqb (String.length hh) 1 || Nat.eqb (String.length hh) 2)
      && Nat.eqb (String.length mm) 2 && Nat.eqb (String.length ss) 2
  | _ => false
  end.

(** The predicate over two or more clusters: equalities joined by OR, in
    the given order. *)
Fixpoint disjunction (first : string) (others : list string) : string :=
  match others with
  | [] => "cluster='" +:+ first +:+ "'"
  | c :: cs => "cluster='" +:+ first +:+ "' OR " +:+ disjunction c cs
  end.

(** The selection string of section 4.1. *)
Definition selection (clusters : list string) (n : Z) (w : string) : string :=
  match clusters with
  | [] => "nodes=" +:+ str_int n +:+ ",walltime=" +:+ w
  | [c] => "{cluster='" +:+ c +:+ "'}/nodes=" +:+ str_int n +:+ ",walltime=" +:+ w
  | c1 :: cs =>
      "{(" +:+ disjunction c1 cs +:+ ")}/nodes=" +:+ str_int n
        +:+ ",walltime=" +:+ w
  end.

(** [part] occurs in [line]. *)
Definition occurs_in (part line : string) : Prop :=
  exists before after, line = before +:+ part +:+ after.

(** The quoting policy of section 4.1 for one composed command line. *)
Definition quoting_policy (line resource command : string) : Prop :=
  occurs_in ("'" +:+ command +:+ "'") line
  /\ occurs_in (String DQUOTE (resource +:+ String DQUOTE "")) line.

(** The command line when clusters are given: the selection in double
    quotes, the name as it is, the command in single quotes. *)
Definition constrained_line (resource : string) (name : option string)
    (best_effort : bool) (command : string) : string :=
  "oarsub -l " +:+ String DQUOTE (resource +:+ String DQUOTE "")
  +:+ match name with
      | Some (String c n) => " -n " +:+ String c n
      | _ => ""
      end
  +:+ (if best_effort then " -t besteffort" else "")
  +:+ " '" +:+ command +:+ "'".

Definition quoted_when_spaced (arg : string) : string :=
  if contains " " arg then "'" +:+ arg +:+ "'" else arg.

(** The command line when no cluster is given: the selection as it is, the
    name and the command in single quotes exactly when they hold a space. *)
Definition unconstrained_line (n : Z) (w : string) (name : option string)
    (best_effort : bool) (command : string) : string :=
  "oarsub -l nodes=" +:+ str_int n +:+ ",walltime=" +:+ w
  +:+ match name with
      | Some (String c nm) => " -n " +:+ quoted_when_spaced (String c nm)
      | _ => ""
      end
  +:+ (if best_effort then " -t besteffort" else "")
  +:+ " " +:+ quoted_when_spaced command.

(** A job-identifier token [OAR_JOB_ID=<digits>] occurs in the output. *)
Definition has_job_token (output : string) : Prop :=
  exists before digits after,
    output = before +:+ "OAR_JOB_ID=" +:+ digits +:+ after
    /\ digits <> "" /\ all_decimal digits = true.

(** A degraded result: a dictionary with an entry that ends in the
    decoder's message and an entry that is the raw text. *)
Definition degraded {json : Type} (msg raw : string) (d : @dict json) : Prop :=
  exists entries,
    d = Built entries
    /\ (exists key intro, (key, VStr (intro +:+ msg)) ∈ entries)
    /\ (exists key, (key, VStr raw) ∈ entries).

(** The operation came back with a value instead of an exception. *)
Definition returns_normally {A S : Type} (r : res A * S) : Prop :=
  exists a, r.1 = Return a.

(** The computation comes back with a value from every state. *)
Definition never_raises {A S : Type} (m : S -> res A * S) : Prop :=
  forall st, returns_normally (m st).

(** The computation raises nothing but [ValueError] and its subclass. *)
Definition raises_only_ValueError {A S : Type} (m : S -> res A * S) : Prop :=
  forall st,
    match (m st).1 with
    | Return _ => True
    | Raise (ValueError _) | Raise (JSONDecodeError _) => True
    | Raise _ => False
    end.

End Spec.

(** ** What an operation starts *)

Section Calls.
Context {world : Type} (CLUSTER_HOSTNAME : string).

(** From [st] to [st'] the remote commands [commands] were run through
    [run_ssh_command], in that order, and no other process was started. *)
Definition ran (st st' : @state world) (commands : list string) : Prop :=
  log st' = (log st ++ (ssh_invocation CLUSTER_HOSTNAME <$> commands))%list.

(** Whatever the computation starts, it starts through [run_ssh_command]. *)
Definition runs_only_ssh {A : Type} (m : @M world A) : Prop :=
  forall st, exists commands, ran st (m st).2 commands.

End Calls.

(** * Properties *)

(** ** Strings *)

Section StringFacts.
Import Py.

Lemma append_cons c a b : String c a +:+ b = String c (a +:+ b).
Proof. reflexivity. Qed.

Lemma append_nil b : "" +:+ b = b.
Proof. reflexivity. Qed.

Lemma append_assoc a b c : (a +:+ b) +:+ c = a +:+ b +:+ c.
Proof. induction a as [|x a IH]; [done|]. rewrite !append_cons. by f_equal. Qed.

Lemma append_nil_r a : a +:+ "" = a.
Proof. induction a as [|x a IH]; [done|]. rewrite append_cons. by f_equal. Qed.

Lemma contains_app c a b : contains c (a +:+ b) = contains c a || contains c b.
Proof.
  induction a as [|x a IH]; simpl; [done|].
  destruct (Ascii.eqb x c); [done|apply IH].
Qed.

Lemma contains_uint c d :
  isdecimal c = false -> contains c (NilEmpty.string_of_uint d) = false.
Proof.
  intros Hc. induction d; cbn [contains NilEmpty.string_of_uint]; try done;
    (destruct (Ascii.eqb _ c) eqn:E; [|done]);
    apply Ascii.eqb_eq in E; subst c; discriminate Hc.
Qed.

Lemma contains_str_int c n :
  isdecimal c = false -> c <> "-"%char -> contains c (str_int n) = false.
Proof.
  intros Hc Hm. unfold str_int, NilZero.string_of_int.
  assert (Hu : forall d, contains c (NilZero.string_of_uint d) = false).
  { intros d. unfold NilZero.string_of_uint.
    destruct d; try apply (contains_uint c _ Hc).
    cbn [contains]. destruct (Ascii.eqb "0" c) eqn:E; [|done].
    apply Ascii.eqb_eq in E; subst c; discriminate Hc. }
  destruct (Z.to_int n); [apply Hu|].
  cbn [contains append]. destruct (Ascii.eqb "-" c) eqn:E.
  - apply Ascii.eqb_eq in E. congruence.
  - apply Hu.
Qed.

Lemma split_head sep s :
  contains sep s = true ->
  exists rest,
    s = default "" (head (split sep s)) +:+ String sep rest
    /\ contains sep (default "" (head (split sep s))) = false.
Proof.
  induction s as [|c s IH]; simpl; [done|].
  destruct (Ascii.eqb c sep) eqn:E.
  - apply Ascii.eqb_eq in E. subst c. intros _. exists s. done.
  - intros H. destruct (IH H) as (rest & Hs & Hn).
    destruct (split sep s) as [|x xs]; simpl in *.
    + exists rest. rewrite Hs at 1. simpl. split; [done|]. by rewrite E.
    + exists rest. rewrite Hs at 1. simpl. split; [done|]. by rewrite E.
Qed.

Lemma split_head_unique sep name rest :
  contains sep name = false ->
  default "" (head (split sep (name +:+ String sep rest))) = name.
Proof.
  induction name as [|c name IH]; simpl.
  - intros _. by rewrite Ascii.eqb_refl.
  - destruct (Ascii.eqb c sep); [done|]. intros H.
    specialize (IH H). destruct (split sep _); simpl in *; by subst.
Qed.

Lemma lstrip_spec s :
  exists before,
    s = before +:+ lstrip s /\ Spec.all_space before = true
    /\ (forall c, Spec.first_char (lstrip s) = Some c -> isspace c = false).
Proof.
  induction s as [|x s (before & Hs & Hb & Hf)]; cbn [lstrip].
  - exists "". by repeat split.
  - destruct (isspace x) eqn:Hx.
    + exists (String x before). rewrite append_cons, <- Hs.
      split; [done|]. split; [cbn [Spec.all_space]; by rewrite Hx, Hb|done].
    + exists "". repeat split. intros c [= <-]. done.
Qed.

Lemma rstrip_spec s :
  exists after,
    s = rstrip s +:+ after /\ Spec.all_space after = true
    /\ (forall c, Spec.last_char (rstrip s) = Some c -> isspace c = false)
    /\ (forall c, Spec.first_char s = Some c -> isspace c = false ->
        Spec.first_char (rstrip s) = Some c).
Proof.
  induction s as [|x s (after & Hs & Ha & Hl & _)]; cbn [rstrip].
  - exists "". by repeat split.
  - destruct (rstrip s) as [|y r] eqn:Hr.
    + rewrite append_nil in Hs. subst after.
      destruct (isspace x) eqn:Hx.
      * exists (String x s).
        repeat split; [cbn [Spec.all_space]; by rewrite Hx, Ha|done|].
        intros c [= <-]. congruence.
      * exists s. repeat split; [done|..].
        -- intros c [= <-]. done.
        -- intros c [= <-]. done.
    + exists after. rewrite append_cons, <- Hs. repeat split; [done|..].
      * intros c Hc. apply Hl. destruct r; done.
      * intros c [= <-]. done.
Qed.

Lemma strip_trimmed s : Spec.trimmed_of s (strip s).
Proof.
  unfold strip, Spec.trimmed_of.
  destruct (lstrip_spec s) as (before & Hs & Hb & Hf).
  destruct (rstrip_spec (lstrip s)) as (after & Hs' & Ha & Hl & Hk).
  split; [|split; [|done]].
  - exists before, after. by rewrite <- Hs', <- Hs.
  - intros c Hc. destruct (lstrip s) as [|x t] eqn:E.
    + done.
    + specialize (Hf x eq_refl). specialize (Hk x eq_refl Hf). congruence.
Qed.

End StringFacts.

(** ** The regular expressions *)

Section Regex.

Import Py.

Lemma isdecimal_not c d : isdecimal c = true -> isdecimal d = false -> Ascii.eqb c d = false.
Proof.
  intros Hc Hd. destruct (Ascii.eqb c d) eqn:E; [|done].
  apply Ascii.eqb_eq in E. congruence.
Qed.

Lemma at_dollar_shape rest :
  Re.at_dollar rest = true -> rest = "" \/ rest = String LF "".
Proof.
  destruct rest as [|c [|? ?]]; cbn [Re.at_dollar]; try done; [by left|].
  intros H%Ascii.eqb_eq. subst. by right.
Qed.

Lemma match_mmss_shape s :
  Re.match_mmss s = true ->
  exists m1 m2 s1 s2 rest,
    s = String ":" (String m1 (String m2 (String ":" (String s1 (String s2 rest)))))
    /\ isdecimal m1 = true /\ isdecimal m2 = true
    /\ isdecimal s1 = true /\ isdecimal s2 = true
    /\ (rest = "" \/ rest = String LF "").
Proof.
  destruct s as [|c1 [|m1 [|m2 [|c2 [|s1 [|s2 rest]]]]]]; cbn [Re.match_mmss]; try done.
  rewrite !andb_true_iff.
  intros [[[[[[H1%Ascii.eqb_eq Hm1] Hm2] H2%Ascii.eqb_eq] Hs1] Hs2] Hr%at_dollar_shape].
  subst. by exists m1, m2, s1, s2, rest.
Qed.

Lemma match_hms_shape s :
  Re.match_hms s = true ->
  exists hh tail m1 m2 s1 s2,
    s = hh +:+ String ":" (String m1 (String m2 (String ":" (String s1 (String s2 tail)))))
    /\ Spec.all_decimal hh = true
    /\ (String.length hh = 1 \/ String.length hh = 2)
    /\ isdecimal m1 = true /\ isdecimal m2 = true
    /\ isdecimal s1 = true /\ isdecimal s2 = true
    /\ (tail = "" \/ tail = String LF "").
Proof.
  destruct s as [|h1 r]; cbn [Re.match_hms]; [done|].
  rewrite andb_true_iff, orb_true_iff. intros [Hh1 [H|H]].
  - destruct r as [|h2 r']; [done|]. apply andb_true_iff in H as [Hh2 H].
    destruct (match_mmss_shape _ H) as (m1 & m2 & s1 & s2 & rest & -> & ? & ? & ? & ? & ?).
    exists (String h1 (String h2 "")), rest, m1, m2, s1, s2.
    cbn [Spec.all_decimal String.length]. rewrite Hh1, Hh2. repeat split; auto.
  - destruct (match_mmss_shape _ H) as (m1 & m2 & s1 & s2 & rest & -> & ? & ? & ? & ? & ?).
    exists (String h1 ""), rest, m1, m2, s1, s2.
    cbn [Spec.all_decimal String.length]. rewrite Hh1. repeat split; auto.
Qed.

Lemma contains_all_decimal c s :
  isdecimal c = false -> Spec.all_decimal s = true -> contains c s = false.
Proof.
  intros Hc. induction s as [|x s IH]; cbn [Spec.all_decimal contains]; [done|].
  intros [Hx Hs]%andb_true_iff. rewrite (isdecimal_not x c) by done. auto.
Qed.

(** An accepted duration holds digits, colons and at most a final line
    feed: no space among them. *)
Lemma match_hms_no_space w : Re.match_hms w = true -> contains " " w = false.
Proof.
  intros (hh & tail & m1 & m2 & s1 & s2 & -> & Hh & _ & Hm1 & Hm2 & Hs1 & Hs2 & Ht)%match_hms_shape.
  rewrite contains_app, (contains_all_decimal " " hh) by done.
  cbn [contains orb].
  rewrite (isdecimal_not m1 " " Hm1 eq_refl), (isdecimal_not m2 " " Hm2 eq_refl),
    (isdecimal_not s1 " " Hs1 eq_refl), (isdecimal_not s2 " " Hs2 eq_refl).
  destruct Ht as [->| ->]; reflexivity.
Qed.

Lemma split_no_sep sep a : contains sep a = false -> split sep a = [a].
Proof.
  induction a as [|x a IH]; cbn [contains split]; [done|].
  destruct (Ascii.eqb x sep); [done|]. intros H. by rewrite (IH H).
Qed.

Lemma split_app_sep sep a b :
  contains sep a = false -> split sep (a +:+ String sep b) = a :: split sep b.
Proof.
  induction a as [|x a IH]; cbn [contains].
  - intros _. rewrite append_nil. cbn [split]. by rewrite Ascii.eqb_refl.
  - rewrite append_cons. cbn [split].
    destruct (Ascii.eqb x sep); [done|]. intros H. by rewrite (IH H).
Qed.

Lemma split_not_nil sep s : split sep s <> [].
Proof.
  destruct s as [|c s]; cbn [split]; [done|].
  destruct (Ascii.eqb c sep); [done|]. by destruct (split sep s).
Qed.

Lemma join_split sep s : join (String sep "") (split sep s) = s.
Proof.
  induction s as [|c s IH]; cbn [split]; [done|].
  pose proof (split_not_nil sep s) as Hne.
  destruct (Ascii.eqb c sep) eqn:E.
  - apply Ascii.eqb_eq in E. subst c.
    destruct (split sep s) as [|x xs]; [done|].
    change (join (String sep "") ("" :: x :: xs))
      with ("" +:+ String sep "" +:+ join (String sep "") (x :: xs)).
    by rewrite IH.
  - destruct (split sep s) as [|x xs]; [done|]. rewrite <- IH.
    destruct xs; reflexivity.
Qed.

Lemma all_decimal_length_2 s :
  Spec.all_decimal s = true -> String.length s = 2 ->
  exists a b, s = String a (String b "") /\ isdecimal a = true /\ isdecimal b = true.
Proof.
  destruct s as [|a [|b [|? ?]]]; cbn [String.length Spec.all_decimal]; try done.
  rewrite !andb_true_iff. intros (? & ? & _) _. by exists a, b.
Qed.

(** The source's pattern accepts the durations of the grammar, and
    besides them the same durations followed by one line feed. *)
Lemma match_hms_iff_grammar s :
  Re.match_hms s = true <->
  Spec.duration_grammar s = true
  \/ exists d, s = d +:+ String LF "" /\ Spec.duration_grammar d = true.
Proof.
  assert (Hcolon : isdecimal ":" = false) by reflexivity.
  assert (Hshape : forall hh m1 m2 s1 s2,
    Spec.all_decimal hh = true ->
    (String.length hh = 1 \/ String.length hh = 2) ->
    isdecimal m1 = true -> isdecimal m2 = true ->
    isdecimal s1 = true -> isdecimal s2 = true ->
    Spec.duration_grammar
      (hh +:+ String ":" (String m1 (String m2 (String ":" (String s1 (String s2 ""))))))
    = true).
  { intros hh m1 m2 s1 s2 Hh Hl Hm1 Hm2 Hs1 Hs2. unfold Spec.duration_grammar.
    rewrite split_app_sep by by apply contains_all_decimal.
    pose proof (split_app_sep ":" (String m1 (String m2 "")) (String s1 (String s2 ""))) as H2.
    rewrite !append_cons, append_nil in H2. rewrite H2.
    2: { cbn [contains]. by rewrite (isdecimal_not m1 ":"), (isdecimal_not m2 ":"). }
    rewrite split_no_sep.
    2: { cbn [contains]. by rewrite (isdecimal_not s1 ":"), (isdecimal_not s2 ":"). }
    cbn [Spec.all_decimal String.length]. rewrite Hh, Hm1, Hm2, Hs1, Hs2.
    destruct Hl as [-> | ->]; reflexivity. }
  split.
  - intros (hh & tail & m1 & m2 & s1 & s2 & -> & Hh & Hl & Hm1 & Hm2 & Hs1 & Hs2 & Ht)%match_hms_shape.
    destruct Ht as [-> | ->]; [left; by apply Hshape|].
    right. eexists. split; [|by apply (Hshape hh m1 m2 s1 s2)].
    rewrite append_assoc. reflexivity.
  - assert (Hconv : forall d, Spec.duration_grammar d = true ->
      exists h1 hr m1 m2 s1 s2,
        d = String h1 (hr +:+ String ":" (String m1 (String m2 (String ":" (String s1 (String s2 ""))))))
        /\ isdecimal h1 = true /\ (hr = "" \/ exists h2, hr = String h2 "" /\ isdecimal h2 = true)
        /\ isdecimal m1 = true /\ isdecimal m2 = true
        /\ isdecimal s1 = true /\ isdecimal s2 = true).
    { intros d. unfold Spec.duration_grammar.
      pose proof (join_split ":" d) as Hj.
      destruct (split ":" d) as [|hh [|mm [|ss [|? ?]]]]; try done.
      rewrite !andb_true_iff, orb_true_iff.
      intros [[[[[Hh Hm] Hs] Hlh] Hlm%Nat.eqb_eq] Hls%Nat.eqb_eq].
      destruct (all_decimal_length_2 mm Hm Hlm) as (m1 & m2 & -> & Hm1 & Hm2).
      destruct (all_decimal_length_2 ss Hs Hls) as (s1 & s2 & -> & Hs1 & Hs2).
      subst d. destruct hh as [|h1 [|h2 [|? ?]]]; cbn in Hlh, Hh.
      - by destruct Hlh.
      - exists h1, "", m1, m2, s1, s2. rewrite andb_true_r in Hh. repeat split; auto.
      - apply andb_true_iff in Hh as [Hh1 Hh2]. rewrite andb_true_r in Hh2.
        exists h1, (String h2 ""), m1, m2, s1, s2. repeat split; eauto.
      - by destruct Hlh. }
    assert (Hacc : forall d tail, Spec.duration_grammar d = true ->
      Re.at_dollar tail = true -> Re.match_hms (d +:+ tail) = true).
    { intros d tail (h1 & hr & m1 & m2 & s1 & s2 & -> & Hh1 & Hr & Hm1 & Hm2 & Hs1 & Hs2)%Hconv Ht.
      destruct Hr as [-> | (h2 & -> & Hh2)].
      - rewrite append_nil, !append_cons, append_nil.
        cbn [Re.match_hms Re.match_mmss]. rewrite Hh1, Hm1, Hm2, Hs1, Hs2, Ht.
        cbn. by rewrite orb_true_r.
      - rewrite !append_cons, append_nil, !append_cons, append_nil.
        cbn [Re.match_hms Re.match_mmss]. rewrite Hh1, Hh2, Hm1, Hm2, Hs1, Hs2, Ht.
        reflexivity. }
    intros [H | (d & -> & H)].
    + rewrite <- (append_nil_r s). by apply Hacc.
    + by apply Hacc.
Qed.

End Regex.

(** ** The search for the job identifier *)

Section Search.
Import Py.

Lemma strip_literal_Some lit s rest :
  Re.strip_literal lit s = Some rest <-> s = lit +:+ rest.
Proof.
  revert s. induction lit as [|a lit IH]; intros s; cbn [Re.strip_literal].
  - rewrite append_nil. split; [by intros [= ->]|by intros ->].
  - rewrite append_cons. destruct s as [|b s]; [done|].
    destruct (Ascii.eqb a b) eqn:E.
    + apply Ascii.eqb_eq in E. subst b. rewrite IH. split; [by intros ->|by intros [= ->]].
    + apply Ascii.eqb_neq in E. split; [done|]. intros [= -> _]. done.
Qed.

Lemma digits_prefix_spec s :
  exists rest,
    s = Re.digits_prefix s +:+ rest
    /\ Spec.all_decimal (Re.digits_prefix s) = true
    /\ (forall c, Spec.first_char rest = Some c -> isdecimal c = false).
Proof.
  induction s as [|x s (rest & Hs & Hd & Hr)]; cbn [Re.digits_prefix].
  - exists "". by repeat split.
  - destruct (isdecimal x) eqn:Hx.
    + exists rest. rewrite append_cons, <- Hs. cbn [Spec.all_decimal]. by rewrite Hx, Hd.
    + exists (String x s). repeat split. by intros c [= <-].
Qed.

Lemma digits_prefix_app digits rest :
  digits <> "" -> Spec.all_decimal digits = true ->
  Re.digits_prefix (digits +:+ rest) <> "".
Proof.
  destruct digits as [|x d]; [done|]. intros _. cbn [Spec.all_decimal].
  intros [Hx _]%andb_true_iff. rewrite append_cons. cbn [Re.digits_prefix].
  by rewrite Hx.
Qed.

Lemma job_id_here_Some s id :
  Re.job_id_here s = Some id ->
  exists rest,
    s = "OAR_JOB_ID=" +:+ id +:+ rest
    /\ id <> "" /\ Spec.all_decimal id = true
    /\ (forall c, Spec.first_char rest = Some c -> isdecimal c = false).
Proof.
  unfold Re.job_id_here.
  destruct (Re.strip_literal "OAR_JOB_ID=" s) as [tail|] eqn:Hl; [|done].
  apply strip_literal_Some in Hl. subst s.
  destruct (digits_prefix_spec tail) as (rest & Ht & Hd & Hr).
  destruct (Re.digits_prefix tail) as [|x d] eqn:Hp; [done|].
  intros [= <-]. exists rest. by rewrite <- Ht.
Qed.

Lemma job_id_here_None s digits rest :
  Re.job_id_here s = None ->
  s = "OAR_JOB_ID=" +:+ digits +:+ rest ->
  digits <> "" -> Spec.all_decimal digits = true -> False.
Proof.
  unfold Re.job_id_here. intros H Hs Hne Hd.
  apply strip_literal_Some in Hs. rewrite Hs in H.
  pose proof (digits_prefix_app digits rest Hne Hd) as Hp.
  by destruct (Re.digits_prefix (digits +:+ rest)).
Qed.

Lemma search_job_id_unfold s :
  Re.search_job_id s =
    match Re.job_id_here s with
    | Some d => Some d
    | None => match s with
              | "" => None
              | String _ s' => Re.search_job_id s'
              end
    end.
Proof. by destruct s. Qed.

(** What [re.search] finds: the first place where the token starts, and
    there the longest run of digits. *)
Lemma search_job_id_Some s id :
  Re.search_job_id s = Some id ->
  exists before rest,
    s = before +:+ "OAR_JOB_ID=" +:+ id +:+ rest
    /\ id <> "" /\ Spec.all_decimal id = true
    /\ (forall c, Spec.first_char rest = Some c -> isdecimal c = false)
    /\ (forall before' digits rest',
          s = before' +:+ "OAR_JOB_ID=" +:+ digits +:+ rest' ->
          digits <> "" -> Spec.all_decimal digits = true ->
          String.length before <= String.length before').
Proof.
  induction s as [|x s IH]; rewrite search_job_id_unfold.
  - destruct (Re.job_id_here "") eqn:E; [done|done].
  - destruct (Re.job_id_here (String x s)) as [d|] eqn:E.
    + intros [= ->]. destruct (job_id_here_Some _ _ E) as (rest & Hs & Hne & Hd & Hr).
      exists "", rest. rewrite append_nil. repeat split; try done.
      intros. cbn. lia.
    + intros (before & rest & Hs & Hne & Hd & Hr & Hleft)%IH.
      exists (String x before), rest. rewrite append_cons, <- Hs.
      repeat split; try done.
      intros [|y before'] digits rest' Hs' Hne' Hd'.
      * rewrite append_nil in Hs'. destruct (job_id_here_None _ _ _ E Hs' Hne' Hd').
      * rewrite append_cons in Hs'. injection Hs' as _ Hs'.
        cbn [String.length]. apply le_n_S. by apply (Hleft before' digits rest').
Qed.

Lemma search_job_id_None s :
  Re.search_job_id s = None <-> ~ Spec.has_job_token s.
Proof.
  split.
  - induction s as [|x s IH]; rewrite search_job_id_unfold.
    + intros _ ([|? ?] & digits & rest & Hs & Hne & Hd); [|done].
      rewrite append_nil in Hs. destruct digits; done.
    + destruct (Re.job_id_here (String x s)) as [d|] eqn:E; [done|].
      intros Hs' ([|y before] & digits & rest & Hs & Hne & Hd).
      * rewrite append_nil in Hs. by destruct (job_id_here_None _ _ _ E Hs Hne Hd).
      * rewrite append_cons in Hs. injection Hs as _ Hs.
        apply (IH Hs'). by exists before, digits, rest.
  - intros Hno. destruct (Re.search_job_id s) as [id|] eqn:E; [|done].
    destruct (search_job_id_Some _ _ E) as (before & rest & Hs & Hne & Hd & _).
    destruct Hno. by exists before, id, rest.
Qed.

End Search.

(** ** The executor *)

Section Executor.
Import Py.
Context {world : Type} (spawn : world -> invocation -> proc_result * world).
Context (host : string).

Local Abbreviation run := (run_ssh_command spawn host).

(** What one executor call does, by the result of the process. *)
Lemma run_ssh_command_eq command st :
  run command st =
    (match (spawn (env st) (ssh_invocation host command)).1 with
     | Exited rc out err =>
         if (rc =? 0)%Z then Return (strip out)
         else Raise (ValueError ("Command failed: " +:+ strip err))
     | TimedOut => Raise (ValueError "Command timed out")
     end,
     {| env := (spawn (env st) (ssh_invocation host command)).2;
        log := log st ++ [ssh_invocation host command] |}).
Proof.
  unfold run_ssh_command, try_except, bind, subprocess_run.
  destruct (spawn _ _) as [[rc out err|] w]; simpl; [|done].
  destruct (rc =? 0)%Z; done.
Qed.

Lemma run_ssh_command_cases command st :
  (exists out, (run command st).1 = Return out)
  \/ (exists msg, (run command st).1 = Raise (ValueError msg)).
Proof.
  rewrite run_ssh_command_eq. simpl.
  destruct (spawn _ _).1 as [rc out err|]; [destruct (rc =? 0)%Z|]; eauto.
Qed.

Lemma run_ssh_command_log command st :
  log (run command st).2 = (log st ++ [ssh_invocation host command])%list.
Proof. by rewrite run_ssh_command_eq. Qed.

(** C6 (amended): every remote command is started through [ssh] with
    [check=True] and a time limit of 30; the log grows by that one call; on
    exit status zero the executor returns the standard output without its
    leading and trailing white space; on any other status it raises a
    [ValueError] whose message is ["Command failed: "] followed by the
    trimmed standard error; when the limit is exceeded it raises a
    [ValueError] whose message is ["Command timed out"]. *)
Theorem run_ssh_command_contract command st :
  let inv := ssh_invocation host command in
  let r := spawn (env st) inv in
  (args inv = ["ssh"; host; command] /\ check inv = true /\ timeout inv = 30%Z)
  /\ (run command st).2 = {| env := r.2; log := (log st ++ [inv])%list |}
  /\ (run command st).1 =
       match r.1 with
       | Exited rc out err =>
           if (rc =? 0)%Z then Return (strip out)
           else Raise (ValueError ("Command failed: " +:+ strip err))
       | TimedOut => Raise (ValueError "Command timed out")
       end
  /\ (forall s, Spec.trimmed_of s (strip s)).
Proof.
  cbv zeta. rewrite run_ssh_command_eq. repeat split; apply strip_trimmed.
Qed.

End Executor.

(** ** The cluster inventory *)

Section Topology.
Import Py.

Lemma ascii_compare_cases x y :
  match Ascii.compare x y with
  | Eq => x = y
  | Lt => (N_of_ascii x < N_of_ascii y)%N
  | Gt => (N_of_ascii y < N_of_ascii x)%N
  end.
Proof.
  unfold Ascii.compare.
  destruct (N.compare_spec (N_of_ascii x) (N_of_ascii y)) as [H|H|H]; try done.
  rewrite <- (ascii_N_embedding x), <- (ascii_N_embedding y). by rewrite H.
Qed.

Lemma ascii_compare_lt x y :
  (N_of_ascii x < N_of_ascii y)%N -> Ascii.compare x y = Lt.
Proof. intros H. unfold Ascii.compare. by apply N.compare_lt_iff. Qed.

Lemma ascii_compare_refl x : Ascii.compare x x = Eq.
Proof. unfold Ascii.compare. apply N.compare_refl. Qed.

Lemma compare_not_gt_trans a b c :
  String.compare a b <> Gt -> String.compare b c <> Gt -> String.compare a c <> Gt.
Proof.
  revert b c. induction a as [|x a IH]; intros [|y b] [|z c]; cbn [String.compare]; try done.
  pose proof (ascii_compare_cases x y) as Hxy.
  pose proof (ascii_compare_cases y z) as Hyz.
  destruct (Ascii.compare x y) eqn:Exy; [| |done];
    (destruct (Ascii.compare y z) eqn:Eyz; [| |done]); subst.
  - rewrite ascii_compare_refl. apply IH.
  - rewrite Eyz. done.
  - rewrite Exy. done.
  - rewrite ascii_compare_lt by lia. done.
Qed.

#[local] Instance str_le_trans : Transitive str_le.
Proof.
  intros a b c. unfold str_le, String.leb. intros Hab Hbc.
  pose proof (compare_not_gt_trans a b c) as H.
  destruct (String.compare a b); [| |done];
    (destruct (String.compare b c); [| |done]);
    (destruct (String.compare a c); [done|done|]); exfalso; by apply H.
Qed.

#[local] Instance str_le_total : Total str_le.
Proof. intros a b. apply String.leb_total. Qed.

#[local] Instance str_le_antisym : AntiSymm eq str_le.
Proof. intros a b. apply String.leb_antisym. Qed.

Lemma elem_of_cluster_set machines acc name :
  name ∈ cluster_set machines acc <->
  name ∈ acc \/
  exists host, host ∈ machines /\ contains "-" host = true
               /\ name = default "" (head (split "-" host)).
Proof.
  revert acc. induction machines as [|m ms IH]; intros acc; cbn [cluster_set].
  - split; [by left|]. intros [H|(host & H & _)]; [done|]. by apply elem_of_nil in H.
  - destruct (contains "-" m) eqn:Hm; rewrite IH.
    + rewrite elem_of_union, elem_of_singleton. split.
      * intros [[H|H]|(host & H & Hc & Hn)]; [by left| |].
        -- right. exists m. split; [apply list_elem_of_here|done].
        -- right. exists host. split; [by apply list_elem_of_further|done].
      * intros [H|(host & H & Hc & Hn)]; [by left; left|].
        apply elem_of_cons in H as [->|H]; [by left; right|].
        right. by exists host.
    + split.
      * intros [H|(host & H & Hc & Hn)]; [by left|].
        right. exists host. split; [by apply list_elem_of_further|done].
      * intros [H|(host & H & Hc & Hn)]; [by left|].
        apply elem_of_cons in H as [->|H]; [congruence|].
        right. by exists host.
Qed.

Lemma elem_of_clusters_of machines name :
  name ∈ clusters_of machines <->
  exists host, host ∈ machines /\ contains "-" host = true
               /\ name = default "" (head (split "-" host)).
Proof.
  unfold clusters_of, sorted. rewrite merge_sort_Permutation, elem_of_elements.
  rewrite elem_of_cluster_set. split; [|by right].
  intros [H|H]; [|done]. by apply not_elem_of_empty in H.
Qed.

Lemma clusters_of_Sorted machines : Sorted str_le (clusters_of machines).
Proof. apply (Sorted_merge_sort str_le). Qed.

Lemma clusters_of_NoDup machines : NoDup (clusters_of machines).
Proof.
  unfold clusters_of, sorted. rewrite merge_sort_Permutation. apply NoDup_elements.
Qed.

Lemma clusters_of_Permutation machines machines' :
  machines ≡ₚ machines' -> clusters_of machines' = clusters_of machines.
Proof.
  intros Hp. apply (Sorted_unique str_le); try apply clusters_of_Sorted.
  apply NoDup_Permutation; try apply clusters_of_NoDup.
  intros name. rewrite !elem_of_clusters_of.
  split; intros (host & H & Hr); exists host; split; try done.
  - by rewrite Hp.
  - by rewrite <- Hp.
Qed.

Context {world : Type} (spawn : world -> invocation -> proc_result * world).
Context (host : string).

Lemma list_machines_eq st :
  list_machines spawn host st =
    (match (run_ssh_command spawn host "oarnodes -l" st).1 with
     | Return output =>
         Return (strip <$> filter (fun line => truthy_str (strip line) = true)
                             (split LF output))
     | Raise e => Raise e
     end, (run_ssh_command spawn host "oarnodes -l" st).2).
Proof.
  unfold list_machines, bind, ret.
  destruct (run_ssh_command _ _ _ _) as [[output|e] st']; done.
Qed.

Lemma list_clusters_eq st :
  list_clusters spawn host st =
    (match (list_machines spawn host st).1 with
     | Return machines => Return (clusters_of machines)
     | Raise e => Raise e
     end, (list_machines spawn host st).2).
Proof.
  unfold list_clusters, bind, ret.
  destruct (list_machines _ _ _) as [[machines|e] st']; done.
Qed.

Lemma list_clusters_log st r st' :
  list_clusters spawn host st = (r, st') ->
  log st' = (log st ++ [ssh_invocation host "oarnodes -l"])%list.
Proof.
  rewrite list_clusters_eq, list_machines_eq. cbn [fst snd]. intros [= _ <-].
  apply run_ssh_command_log.
Qed.

(** C8: whatever host names the machine listing returns, [list_clusters]
    returns the names before the first ['-'] of the hosts that have one,
    each once, in ascending order; the order of the hosts does not matter
    and a host without ['-'] adds nothing. *)
Theorem list_clusters_sorted_distinct_prefixes machines st st' :
  list_machines spawn host st = (Return machines, st') ->
  list_clusters spawn host st = (Return (clusters_of machines), st')
  /\ Sorted str_le (clusters_of machines)
  /\ NoDup (clusters_of machines)
  /\ (forall name,
        name ∈ clusters_of machines <->
        exists hostname rest,
          hostname ∈ machines /\ hostname = name +:+ String "-" rest
          /\ contains "-" name = false)
  /\ (forall machines',
        machines ≡ₚ machines' -> clusters_of machines' = clusters_of machines)
  /\ (forall hostname,
        contains "-" hostname = false ->
        clusters_of (hostname :: machines) = clusters_of machines).
Proof.
  intros Hm. split; [by rewrite list_clusters_eq, Hm|].
  split; [apply clusters_of_Sorted|]. split; [apply clusters_of_NoDup|].
  split; [|split; [apply clusters_of_Permutation|]].
  - intros name. rewrite elem_of_clusters_of. split.
    + intros (h & Hh & Hc & ->). destruct (split_head "-" h Hc) as (rest & Hs & Hn).
      by exists h, rest.
    + intros (h & rest & Hh & -> & Hn). exists (name +:+ String "-" rest).
      split; [done|]. split.
      * rewrite contains_app. cbn [contains]. rewrite Ascii.eqb_refl.
        by rewrite orb_true_r.
      * by rewrite split_head_unique.
  - intros h Hh. unfold clusters_of. cbn [cluster_set]. by rewrite Hh.
Qed.

End Topology.

(** ** Job creation *)

Ltac normalize_append :=
  repeat (rewrite append_assoc || rewrite append_cons
          || rewrite append_nil || rewrite append_nil_r).

Section JobCreation.
Import Py.
Context {world : Type} (spawn : world -> invocation -> proc_result * world).
Context (host : string).

Local Abbreviation run := (run_ssh_command spawn host).
Local Abbreviation create := (create_job spawn host).
Local Abbreviation check_cl := (check_clusters spawn host).
Local Abbreviation known := (clusters_known spawn host).

Lemma join_cluster_terms c cs :
  join " OR " (cluster_term <$> c :: cs) = Spec.disjunction c cs.
Proof.
  revert c. induction cs as [|c' cs IH]; intros c; [done|].
  cbn [Spec.disjunction]. rewrite <- IH.
  change (join " OR " (cluster_term <$> c :: c' :: cs))
    with (cluster_term c +:+ " OR " +:+ join " OR " (cluster_term <$> c' :: cs)).
  generalize (join " OR " (cluster_term <$> c' :: cs)). intros tail.
  unfold cluster_term. rewrite !append_assoc. reflexivity.
Qed.

Lemma resource_string_selection clusters n w :
  resource_string clusters n w = Spec.selection (default [] clusters) n w.
Proof.
  destruct clusters as [[|c [|c' cs]]|]; cbn [resource_string default truthy_list
    Spec.selection cluster_part]; unfold nodes_walltime; try done.
  - by rewrite !append_assoc.
  - rewrite join_cluster_terms. by rewrite !append_assoc.
Qed.

Lemma invalid_clusters_nil cs available :
  (forall c, c ∈ cs -> c ∈ available) -> invalid_clusters cs available = [].
Proof.
  intros H. unfold invalid_clusters. induction cs as [|c cs IH]; [done|].
  rewrite filter_cons_False.
  - apply IH. intros x Hx. apply H. by apply list_elem_of_further.
  - intros Hc. apply Hc, H, list_elem_of_here.
Qed.

Lemma elem_of_invalid_clusters cs available c :
  c ∈ invalid_clusters cs available <-> c ∈ cs /\ c ∉ available.
Proof. unfold invalid_clusters. rewrite list_elem_of_filter. tauto. Qed.

Lemma check_clusters_known clusters n w st st1 :
  known clusters st st1 ->
  check_cl clusters n w st = (Return (inr (resource_string clusters n w)), st1).
Proof.
  unfold clusters_known, check_clusters.
  destruct (truthy_clusters clusters); [|by intros ->].
  intros (available & Hl & Hk). unfold bind. rewrite Hl.
  by rewrite (invalid_clusters_nil _ _ Hk).
Qed.

Lemma check_clusters_unknown cs n w st available st1 c :
  list_clusters spawn host st = (Return available, st1) ->
  c ∈ cs -> c ∉ available ->
  check_cl (Some cs) n w st =
    (Return (inl ("Invalid clusters: " +:+ repr_list (invalid_clusters cs available)
                    +:+ ". Available: " +:+ repr_list available)), st1).
Proof.
  intros Hl Hc Hn. unfold check_clusters.
  assert (Ht : truthy_clusters (Some cs) = true) by (destruct cs; [by apply elem_of_nil in Hc|done]).
  rewrite Ht. unfold bind. rewrite Hl. change (default [] (Some cs)) with cs.
  assert (Hi : c ∈ invalid_clusters cs available) by by apply elem_of_invalid_clusters.
  destruct (invalid_clusters cs available); [by apply elem_of_nil in Hi|].
  done.
Qed.

(** A walltime that the pattern refuses ends the call at once. *)
Lemma create_job_refuses clusters n w command name best_effort st :
  Re.match_hms w = false ->
  create clusters n w command name best_effort st =
    (Return "Invalid walltime format. Use hh:mm:ss (e.g., '1:00:00')", st).
Proof. intros H. unfold create_job, try_except. by rewrite H. Qed.

(** A request that passed both checks is submitted, and whatever the
    process does becomes the text of the answer. *)
Lemma create_job_submits clusters n w command name best_effort st resource st1 :
  Re.match_hms w = true ->
  check_cl clusters n w st = (Return (inr resource), st1) ->
  let inv := ssh_invocation host
               (full_command clusters resource name best_effort command) in
  create clusters n w command name best_effort st =
    (Return
       match (spawn (env st1) inv).1 with
       | Exited rc out err =>
           if (rc =? 0)%Z then submission_report (strip out)
           else "Failed to create job: " +:+ "Command failed: " +:+ strip err
       | TimedOut => "Failed to create job: " +:+ "Command timed out"
       end,
     {| env := (spawn (env st1) inv).2; log := (log st1 ++ [inv])%list |}).
Proof.
  intros Hw Hc inv. unfold create_job, try_except, bind. rewrite Hw. cbn [negb].
  rewrite Hc, run_ssh_command_eq. fold inv.
  destruct (spawn (env st1) inv).1 as [rc out err|]; [|done].
  by destruct (rc =? 0)%Z.
Qed.

Lemma create_job_log clusters n w command name best_effort st resource st1 :
  Re.match_hms w = true ->
  check_cl clusters n w st = (Return (inr resource), st1) ->
  log (create clusters n w command name best_effort st).2 =
    (log st1 ++ [ssh_invocation host
                   (full_command clusters resource name best_effort command)])%list.
Proof.
  intros Hw Hc. by rewrite (create_job_submits _ _ _ _ _ _ _ _ _ Hw Hc).
Qed.

Lemma contains_nodes_walltime n w :
  Re.match_hms w = true -> contains " " (nodes_walltime n w) = false.
Proof.
  intros Hw. unfold nodes_walltime.
  rewrite !contains_app, contains_str_int, (match_hms_no_space w Hw); done.
Qed.

Lemma full_command_constrained clusters resource name best_effort command :
  truthy_clusters clusters = true ->
  full_command clusters resource name best_effort command =
    Spec.constrained_line resource name best_effort command.
Proof.
  intros Ht. unfold full_command. rewrite Ht. unfold Spec.constrained_line.
  destruct name as [[|c nm]|], best_effort; reflexivity.
Qed.

Lemma full_command_unconstrained clusters n w name best_effort command :
  truthy_clusters clusters = false -> Re.match_hms w = true ->
  full_command clusters (nodes_walltime n w) name best_effort command =
    Spec.unconstrained_line n w name best_effort command.
Proof.
  intros Ht Hw. unfold full_command. rewrite Ht.
  unfold Spec.unconstrained_line, oarsub_args.
  pose proof (contains_nodes_walltime n w Hw) as Hr.
  assert (Hq : quote_if_space (nodes_walltime n w) = nodes_walltime n w)
    by (unfold quote_if_space; by rewrite Hr).
  destruct name as [[|c nm]|], best_effort;
    cbn [name_args truthy_str best_effort_args app fmap list_fmap join];
    rewrite Hq; unfold nodes_walltime; rewrite !append_assoc; reflexivity.
Qed.

Lemma occurs_in_middle before part rest : Spec.occurs_in part (before +:+ part +:+ rest).
Proof. by exists before, rest. Qed.

Lemma occurs_in_contains c part line :
  Spec.occurs_in part line -> contains c part = true -> contains c line = true.
Proof.
  intros (before & rest & ->) H. rewrite !contains_app, H.
  by rewrite orb_true_r.
Qed.

(** C1: a request with an accepted walltime whose clusters, if any, are all
    in the inventory compiles to the selection string of the specification:
    [{cluster='c'}/nodes=n,walltime=w] for one cluster, the bracketed
    disjunction in the given order (duplicates kept) for several, and
    [nodes=n,walltime=w] for none; that string is the one submitted. *)
Theorem create_job_selection_string clusters n w command name best_effort st st1 :
  Re.match_hms w = true ->
  known clusters st st1 ->
  resource_string clusters n w = Spec.selection (default [] clusters) n w
  /\ check_cl clusters n w st =
       (Return (inr (Spec.selection (default [] clusters) n w)), st1)
  /\ log (create clusters n w command name best_effort st).2 =
       (log st1 ++ [ssh_invocation host
                      (full_command clusters
                         (Spec.selection (default [] clusters) n w)
                         name best_effort command)])%list.
Proof.
  intros Hw Hk. pose proof (check_clusters_known clusters n w st st1 Hk) as Hc.
  rewrite resource_string_selection in Hc.
  split; [apply resource_string_selection|]. split; [done|].
  by apply create_job_log.
Qed.

(** C2 (amended): the command line of an accepted request is, when clusters
    are named, [oarsub -l "<selection>"], then [-n <name>] as it is, then
    [-t besteffort], then ['<command>'] (so the selection is in double
    quotes and the command in single quotes); and when no cluster is named,
    the selection as it is, and the name and the command in single quotes
    exactly when they hold a space character. *)
Theorem create_job_command_line clusters n w command name best_effort st st1 :
  Re.match_hms w = true ->
  known clusters st st1 ->
  let selection := Spec.selection (default [] clusters) n w in
  let line :=
    if truthy_clusters clusters
    then Spec.constrained_line selection name best_effort command
    else Spec.unconstrained_line n w name best_effort command in
  log (create clusters n w command name best_effort st).2 =
    (log st1 ++ [ssh_invocation host line])%list
  /\ (truthy_clusters clusters = true ->
      Spec.quoting_policy line selection command).
Proof.
  intros Hw Hk selection line.
  pose proof (check_clusters_known clusters n w st st1 Hk) as Hc.
  rewrite (create_job_log _ _ _ _ _ _ _ _ _ Hw Hc).
  subst line selection. rewrite <- resource_string_selection.
  destruct (truthy_clusters clusters) eqn:Ht.
  - rewrite full_command_constrained by done. split; [done|]. intros _.
    unfold Spec.constrained_line. split.
    + exists ("oarsub -l " +:+ double_quoted (resource_string clusters n w)
              +:+ match name with
                  | Some (String c nm) => " -n " +:+ String c nm
                  | _ => ""
                  end
              +:+ (if best_effort then " -t besteffort" else "") +:+ " "), "".
      unfold double_quoted. by normalize_append.
    + apply (occurs_in_middle "oarsub -l ").
  - split; [|done].
    rewrite <- (full_command_unconstrained clusters n w name best_effort command Ht Hw).
    by destruct clusters as [[|? ?]|].
Qed.

(** C4 (amended): when the walltime is accepted, the inventory has been read
    and some requested cluster is not in it, [create_job] answers with the
    text that lists the requested names that are not in the inventory, in
    the order given, and then the whole inventory; the only remote command
    so far is the listing of the nodes, and nothing is submitted. *)
Theorem create_job_unknown_clusters cs n w command name best_effort st available st1 c :
  Re.match_hms w = true ->
  list_clusters spawn host st = (Return available, st1) ->
  c ∈ cs -> c ∉ available ->
  create (Some cs) n w command name best_effort st =
    (Return ("Invalid clusters: " +:+ repr_list (invalid_clusters cs available)
               +:+ ". Available: " +:+ repr_list available), st1)
  /\ log st1 = (log st ++ [ssh_invocation host "oarnodes -l"])%list
  /\ (forall x, x ∈ invalid_clusters cs available <-> x ∈ cs /\ x ∉ available).
Proof.
  intros Hw Hl Hc Hn. split; [|split].
  - unfold create_job, try_except, bind. rewrite Hw. cbn [negb].
    by rewrite (check_clusters_unknown cs n w st available st1 c Hl Hc Hn).
  - by apply (list_clusters_log spawn host st (Return available)).
  - intros x. apply elem_of_invalid_clusters.
Qed.

(** C7: once an accepted request has been submitted and the executor has
    returned [output], [create_job] answers with success: with the digits
    of the first [OAR_JOB_ID=<digits>] token and the output when there is
    such a token, and with the output alone when there is none. *)
Theorem create_job_reports_job_id clusters n w command name best_effort
    st resource st1 output st2 :
  Re.match_hms w = true ->
  check_cl clusters n w st = (Return (inr resource), st1) ->
  run (full_command clusters resource name best_effort command) st1
    = (Return output, st2) ->
  create clusters n w command name best_effort st =
    (Return match Re.search_job_id output with
            | Some job_id =>
                "Job created successfully with ID: " +:+ job_id
                  +:+ String LF ("Output: " +:+ output)
            | None => "Job submission completed: " +:+ output
            end, st2)
  /\ (Re.search_job_id output = None <-> ~ Spec.has_job_token output)
  /\ (forall job_id,
        Re.search_job_id output = Some job_id ->
        exists before rest,
          output = before +:+ "OAR_JOB_ID=" +:+ job_id +:+ rest
          /\ job_id <> "" /\ Spec.all_decimal job_id = true
          /\ (forall d, Spec.first_char rest = Some d -> isdecimal d = false)
          /\ (forall before' digits rest',
                output = before' +:+ "OAR_JOB_ID=" +:+ digits +:+ rest' ->
                digits <> "" -> Spec.all_decimal digits = true ->
                String.length before <= String.length before')).
Proof.
  intros Hw Hc Hr. split; [|split].
  - unfold create_job, try_except, bind. rewrite Hw. cbn [negb]. by rewrite Hc, Hr.
  - apply search_job_id_None.
  - apply search_job_id_Some.
Qed.

(** C10: the node count is not checked: for every integer [n], zero and the
    negative ones too, an accepted request carries [nodes=] followed by the
    decimal text of [n] in its selection string and is submitted. *)
Theorem create_job_nodes_unchecked (n : Z) clusters w command name best_effort st st1 :
  Re.match_hms w = true ->
  known clusters st st1 ->
  let resource :=
    (if truthy_clusters clusters
     then cluster_part (default [] clusters) +:+ "/" else "")
    +:+ "nodes=" +:+ str_int n +:+ ",walltime=" +:+ w in
  check_cl clusters n w st = (Return (inr resource), st1)
  /\ log (create clusters n w command name best_effort st).2 =
       (log st1 ++ [ssh_invocation host
                      (full_command clusters resource name best_effort command)])%list
  /\ str_int 0 = "0"
  /\ (forall p, str_int (Z.neg p) = "-" +:+ str_int (Z.pos p)).
Proof.
  intros Hw Hk resource.
  pose proof (check_clusters_known clusters n w st st1 Hk) as Hc.
  assert (Hr : resource_string clusters n w = resource).
  { subst resource. unfold resource_string, nodes_walltime.
    destruct clusters as [[|c cs]|]; cbn [truthy_clusters truthy_list]; try done.
    change (default [] (Some (c :: cs))) with (c :: cs).
    by rewrite !append_assoc. }
  rewrite Hr in Hc. split; [done|]. split; [by apply create_job_log|].
  split; [done|]. intros p. reflexivity.
Qed.

End JobCreation.

(** ** The operation boundary and the structured queries *)

Create HintDb py_exn.

Section Boundary.
Import Py.
Context {world : Type} (spawn : world -> invocation -> proc_result * world).
Context (host : string).
Context {json : Type} (json_loads : string -> string + json).

Local Abbreviation run := (run_ssh_command spawn host).
Local Abbreviation st_t := (@state world).

Lemma only_ValueError_ret {A} (a : A) :
  Spec.raises_only_ValueError (ret a : st_t -> _).
Proof. by intros st. Qed.

Lemma only_ValueError_bind {A B} (m : M A) (k : A -> M B) :
  Spec.raises_only_ValueError (m : st_t -> _) ->
  (forall a, Spec.raises_only_ValueError (k a)) ->
  Spec.raises_only_ValueError (bind m k).
Proof.
  intros Hm Hk st. unfold bind. specialize (Hm st).
  destruct (m st) as [[a|e] st']; [apply Hk|done].
Qed.

Lemma only_ValueError_try {A} (m : M A) handler :
  Spec.raises_only_ValueError (m : st_t -> _) ->
  (forall e h, handler e = Some h -> Spec.raises_only_ValueError h) ->
  Spec.raises_only_ValueError (try_except m handler).
Proof.
  intros Hm Hh st. unfold try_except. specialize (Hm st).
  destruct (m st) as [[a|e] st']; [done|].
  destruct (handler e) as [h|] eqn:E; [by apply (Hh e h)|done].
Qed.

Lemma only_ValueError_run command : Spec.raises_only_ValueError (run command).
Proof.
  intros st. destruct (run_ssh_command_cases spawn host command st) as [[? ->]|[? ->]]; done.
Qed.

Lemma only_ValueError_loads output :
  Spec.raises_only_ValueError (loads json_loads output : st_t -> _).
Proof. intros st. unfold loads. by destruct (json_loads output). Qed.

Lemma only_ValueError_never {A} (m : M A) :
  Spec.never_raises (m : st_t -> _) -> Spec.raises_only_ValueError m.
Proof. intros H st. by destruct (H st) as [a ->]. Qed.

Lemma never_raises_ret {A} (a : A) : Spec.never_raises (ret a : st_t -> _).
Proof. intros st. by exists a. Qed.

(** A body that raises nothing but [ValueError], under a clause
    [except ValueError] that returns, never raises. *)
Lemma never_raises_try {A} (m : M A) (h : string -> M A) :
  Spec.raises_only_ValueError (m : st_t -> _) ->
  (forall msg, Spec.never_raises (h msg)) ->
  Spec.never_raises (try_except m (except_ValueError h)).
Proof.
  intros Hm Hh st. unfold try_except. specialize (Hm st).
  destruct (m st) as [[a|[msg|msg| |]] st']; cbn [except_ValueError];
    try done; [by exists a|apply Hh..].
Qed.

Lemma only_ValueError_list_machines :
  Spec.raises_only_ValueError (list_machines spawn host).
Proof.
  apply only_ValueError_bind; [apply only_ValueError_run|].
  intros. apply only_ValueError_ret.
Qed.

Lemma only_ValueError_list_clusters :
  Spec.raises_only_ValueError (list_clusters spawn host).
Proof.
  apply only_ValueError_bind; [apply only_ValueError_list_machines|].
  intros. apply only_ValueError_ret.
Qed.

Lemma only_ValueError_check_clusters clusters n w :
  Spec.raises_only_ValueError (check_clusters spawn host clusters n w).
Proof.
  unfold check_clusters. destruct (truthy_clusters clusters);
    [|apply only_ValueError_ret].
  apply only_ValueError_bind; [apply only_ValueError_list_clusters|].
  intros available. destruct (truthy_list _); apply only_ValueError_ret.
Qed.

#[local] Hint Resolve only_ValueError_ret only_ValueError_run only_ValueError_loads
  only_ValueError_list_machines only_ValueError_list_clusters
  only_ValueError_check_clusters never_raises_ret : py_exn.

Lemma delete_job_returns job_id : Spec.never_raises (delete_job spawn host job_id).
Proof.
  apply never_raises_try; [|auto with py_exn].
  apply only_ValueError_bind; auto with py_exn.
Qed.

Lemma extend_walltime_returns job_id additional_time force :
  Spec.never_raises (extend_walltime spawn host job_id additional_time force).
Proof.
  apply never_raises_try; [|auto with py_exn].
  destruct (negb _); [auto with py_exn|].
  apply only_ValueError_bind; auto with py_exn.
Qed.

Lemma get_walltime_status_returns job_id :
  Spec.never_raises (get_walltime_status spawn host job_id).
Proof.
  apply never_raises_try; [|auto with py_exn].
  apply only_ValueError_bind; auto with py_exn.
Qed.

Lemma create_job_returns clusters n w command name best_effort :
  Spec.never_raises (create_job spawn host clusters n w command name best_effort).
Proof.
  apply never_raises_try; [|auto with py_exn].
  destruct (negb _); [auto with py_exn|].
  apply only_ValueError_bind; [auto with py_exn|].
  intros [rejection|resource]; [auto with py_exn|].
  apply only_ValueError_bind; auto with py_exn.
Qed.

Lemma only_ValueError_parse output :
  Spec.raises_only_ValueError
    (try_except (loads json_loads output)
       (fun e => match e with
                 | JSONDecodeError msg => Some (ret (parse_error msg output))
                 | _ => None
                 end) : st_t -> _).
Proof.
  apply only_ValueError_try; [auto with py_exn|].
  intros [| | |] h; try done. intros [= <-]. auto with py_exn.
Qed.

Lemma get_job_status_returns job_id :
  Spec.never_raises (get_job_status spawn host json_loads job_id).
Proof.
  apply never_raises_try; [|auto with py_exn].
  apply only_ValueError_bind; [auto with py_exn|]. intros. apply only_ValueError_parse.
Qed.

Lemma list_all_jobs_returns :
  Spec.never_raises (list_all_jobs spawn host json_loads).
Proof.
  apply never_raises_try; [|auto with py_exn].
  apply only_ValueError_bind; [auto with py_exn|]. intros. apply only_ValueError_parse.
Qed.

Lemma list_my_jobs_returns :
  Spec.never_raises (list_my_jobs spawn host json_loads).
Proof.
  apply never_raises_try; [|auto with py_exn].
  apply only_ValueError_bind; [auto with py_exn|]. intros regular_output.
  destruct (negb _); [auto with py_exn|].
  apply only_ValueError_bind; [auto with py_exn|]. intros output.
  apply only_ValueError_try; [auto with py_exn|].
  intros [| | |] h; try done. intros [= <-].
  apply only_ValueError_never, never_raises_try; [|auto with py_exn].
  apply only_ValueError_bind; auto with py_exn.
Qed.

(** C5 (amended): the seven operations that have a clause for [ValueError]
    come back with a value whatever the executor does; [list_machines] and
    [list_clusters] have none: they come back with a value when the executor
    succeeds and let its error through when it fails. *)
Theorem operations_return_or_propagate :
  (forall job_id, Spec.never_raises (delete_job spawn host job_id))
  /\ (forall job_id additional_time force,
        Spec.never_raises (extend_walltime spawn host job_id additional_time force))
  /\ (forall job_id, Spec.never_raises (get_walltime_status spawn host job_id))
  /\ (forall clusters n w command name best_effort,
        Spec.never_raises
          (create_job spawn host clusters n w command name best_effort))
  /\ (forall job_id, Spec.never_raises (get_job_status spawn host json_loads job_id))
  /\ Spec.never_raises (list_all_jobs spawn host json_loads)
  /\ Spec.never_raises (list_my_jobs spawn host json_loads)
  /\ (forall st,
        match (run "oarnodes -l" st).1 with
        | Return _ =>
            Spec.returns_normally (list_machines spawn host st)
            /\ Spec.returns_normally (list_clusters spawn host st)
        | Raise e =>
            (list_machines spawn host st).1 = Raise e
            /\ (list_clusters spawn host st).1 = Raise e
        end).
Proof.
  split; [apply delete_job_returns|]. split; [apply extend_walltime_returns|].
  split; [apply get_walltime_status_returns|]. split; [apply create_job_returns|].
  split; [apply get_job_status_returns|]. split; [apply list_all_jobs_returns|].
  split; [apply list_my_jobs_returns|].
  intros st. rewrite list_clusters_eq, list_machines_eq. cbn [fst].
  destruct (run "oarnodes -l" st).1 as [output|e]; [|done].
  split; eexists; reflexivity.
Qed.

(** C9 (amended): when the output of a structured query does not parse,
    [list_machines_detailed], [get_job_status] and [list_all_jobs] answer
    with the decoder's message and the output as it is; [list_my_jobs]
    asks for the plain listing again and answers with that text, and only
    when that call fails with the decoder's message and the output. *)
Theorem structured_queries_degrade output msg :
  json_loads output = inl msg ->
  Spec.degraded msg output (parse_error (json := json) msg output)
  /\ (forall st st1,
        run "oarnodes -J" st = (Return output, st1) ->
        list_machines_detailed spawn host json_loads st
          = (Return (parse_error msg output), st1))
  /\ (forall job_id st st1,
        run ("oarstat -j " +:+ str_int job_id +:+ " -J") st = (Return output, st1) ->
        get_job_status spawn host json_loads job_id st
          = (Return (parse_error msg output), st1))
  /\ (forall st st1,
        run "oarstat -J" st = (Return output, st1) ->
        list_all_jobs spawn host json_loads st
          = (Return (parse_error msg output), st1))
  /\ (forall st regular_output st1 st2,
        run "oarstat -u" st = (Return regular_output, st1) ->
        strip regular_output <> "" ->
        run "oarstat -u -J" st1 = (Return output, st2) ->
        list_my_jobs spawn host json_loads st =
          (Return
             match (run "oarstat -u" st2).1 with
             | Return again =>
                 Built [("message", VStr "Jobs for current user (text format due to JSON parsing error)");
                        ("output", VStr again)]
             | Raise _ =>
                 Built [("error", VStr ("Failed to parse JSON output and fallback failed: " +:+ msg));
                        ("raw_output", VStr output)]
             end,
           (run "oarstat -u" st2).2)).
Proof.
  intros Hj. split; [|split; [|split; [|split]]].
  - exists [("error", VStr ("Failed to parse JSON output: " +:+ msg));
            ("raw_output", VStr output)].
    split; [done|]. split.
    + exists "error", "Failed to parse JSON output: ". apply list_elem_of_here.
    + exists "raw_output". apply list_elem_of_further, list_elem_of_here.
  - intros st st1 Hr. unfold list_machines_detailed, bind, try_except, loads.
    by rewrite Hr, Hj.
  - intros job_id st st1 Hr. unfold get_job_status, bind, try_except, loads.
    by rewrite Hr, Hj.
  - intros st st1 Hr. unfold list_all_jobs, bind, try_except, loads.
    by rewrite Hr, Hj.
  - intros st regular_output st1 st2 Hr Hne Hr2.
    unfold list_my_jobs, bind, try_except, loads. rewrite Hr.
    destruct (strip regular_output) eqn:Hs; [done|]. cbn [truthy_str negb].
    rewrite Hr2, Hj. cbn [raise].
    destruct (run_ssh_command_cases spawn host "oarstat -u" st2) as [[out Ho]|[m Ho]];
      destruct (run "oarstat -u" st2) as [r st3]; cbn [fst snd] in *; by subst r.
Qed.

End Boundary.

(** ** Scenarios on the replaying transport *)

Section Scenarios.
Import Py Fake.

Local Abbreviation ssh := (ssh_invocation host).

(** C1, at the clusters [bulbasaur; alakazam; bulbasaur]: the order and the
    repeated name are kept. *)
Lemma create_job_selection_string_example :
  let st := boot [ok nodes_listing; ok "OAR_JOB_ID=1234"] in
  let st1 := {| env := [ok "OAR_JOB_ID=1234"]; log := [ssh "oarnodes -l"] |} in
  let clusters := Some ["bulbasaur"; "alakazam"; "bulbasaur"] in
  let selection :=
    "{(cluster='bulbasaur' OR cluster='alakazam' OR cluster='bulbasaur')}/nodes=2,walltime=2:00:00" in
  Spec.selection ["bulbasaur"; "alakazam"; "bulbasaur"] 2 "2:00:00" = selection
  /\ (resource_string clusters 2 "2:00:00" = selection
      /\ check_clusters replay host clusters 2 "2:00:00" st
         = (Return (inr selection), st1)
      /\ log (create_job replay host clusters 2 "2:00:00" "sleep 365d" None false st).2
         = (log st1 ++ [ssh (full_command clusters selection None false "sleep 365d")])%list).
Proof.
  split; [reflexivity|].
  apply (create_job_selection_string replay host
           (Some ["bulbasaur"; "alakazam"; "bulbasaur"]) 2 "2:00:00" "sleep 365d"
           None false
           (boot [ok nodes_listing; ok "OAR_JOB_ID=1234"])
           {| env := [ok "OAR_JOB_ID=1234"]; log := [ssh "oarnodes -l"] |}).
  - reflexivity.
  - exists ["alakazam"; "bulbasaur"]. split; [reflexivity|].
    intros c Hc. change (c ∈ ["bulbasaur"; "alakazam"; "bulbasaur"]) in Hc.
    rewrite !elem_of_cons in Hc. rewrite !elem_of_cons. tauto.
Defined.

(** C2, as stated, fails on the default request: without clusters the
    selection goes out as it is, and no double quote is in the line. *)
Lemma unconstrained_selection_not_double_quoted :
  let line := "oarsub -l nodes=1,walltime=1:00:00 'sleep 365d'" in
  resource_string None 1 "1:00:00" = "nodes=1,walltime=1:00:00"
  /\ log (create_job replay host None 1 "1:00:00" "sleep 365d" None false (boot [])).2
     = [ssh line]
  /\ ~ Spec.quoting_policy line "nodes=1,walltime=1:00:00" "sleep 365d".
Proof.
  cbv zeta. split; [reflexivity|]. split; [reflexivity|].
  intros [_ Hq]. apply (occurs_in_contains DQUOTE) in Hq; [|reflexivity].
  discriminate Hq.
Qed.

(** C2 (amended), with clusters, a name and the best-effort flag. *)
Lemma create_job_command_line_example :
  let st := boot [ok nodes_listing; ok "OAR_JOB_ID=1234"] in
  let st1 := {| env := [ok "OAR_JOB_ID=1234"]; log := [ssh "oarnodes -l"] |} in
  let clusters := Some ["alakazam"] in
  let line :=
    Spec.constrained_line "{cluster='alakazam'}/nodes=2,walltime=2:00:00"
      (Some "my job") true "sleep 365d" in
  log (create_job replay host clusters 2 "2:00:00" "sleep 365d" (Some "my job") true st).2
    = (log st1 ++ [ssh line])%list
  /\ (truthy_clusters clusters = true ->
      Spec.quoting_policy line "{cluster='alakazam'}/nodes=2,walltime=2:00:00"
        "sleep 365d").
Proof.
  apply (create_job_command_line replay host (Some ["alakazam"]) 2 "2:00:00"
           "sleep 365d" (Some "my job") true
           (boot [ok nodes_listing; ok "OAR_JOB_ID=1234"])
           {| env := [ok "OAR_JOB_ID=1234"]; log := [ssh "oarnodes -l"] |}).
  - reflexivity.
  - exists ["alakazam"; "bulbasaur"]. split; [reflexivity|].
    intros c Hc. change (c ∈ ["alakazam"]) in Hc.
    rewrite !elem_of_cons in Hc. rewrite !elem_of_cons. tauto.
Defined.

(** C3: the duration ["1:00:00"] followed by a line feed is not a duration
    of the grammar, the pattern of the source accepts it, and both
    operations go on to the executor with it. *)
Lemma trailing_line_feed_reaches_executor :
  let w := "1:00:00" +:+ String LF "" in
  Spec.duration_grammar w = false
  /\ Re.match_hms w = true
  /\ log (create_job replay host None 1 w "sleep 365d" None false (boot [])).2
     = [ssh ("oarsub -l nodes=1,walltime=" +:+ w +:+ " 'sleep 365d'")]
  /\ log (extend_walltime replay host 7 w false (boot [])).2
     = [ssh ("oarwalltime 7 +" +:+ w)].
Proof. cbv zeta. repeat split; reflexivity. Qed.

(** The text of a refusal, for both operations: nothing is started. *)
Lemma walltime_refused_before_any_call {world : Type}
    (spawn : world -> invocation -> proc_result * world) (hostname : string)
    clusters n w command name best_effort job_id force st :
  Re.match_hms w = false ->
  create_job spawn hostname clusters n w command name best_effort st
    = (Return "Invalid walltime format. Use hh:mm:ss (e.g., '1:00:00')", st)
  /\ extend_walltime spawn hostname job_id w force st
     = (Return "Invalid time format. Use hh:mm:ss (e.g., '1:30:00')", st).
Proof.
  intros Hw. split; [by apply create_job_refuses|].
  unfold extend_walltime, try_except. by rewrite Hw.
Qed.

Lemma walltime_refused_example :
  create_job replay host None 1 "25:00" "sleep 365d" None false (boot [])
    = (Return "Invalid walltime format. Use hh:mm:ss (e.g., '1:00:00')", boot [])
  /\ extend_walltime replay host 7 "25:00" false (boot [])
     = (Return "Invalid time format. Use hh:mm:ss (e.g., '1:30:00')", boot []).
Proof.
  apply (walltime_refused_before_any_call replay host None 1 "25:00" "sleep 365d"
           None false 7 false (boot [])).
  reflexivity.
Defined.

(** C4, as stated, fails when the walltime is refused first: the answer
    is about the walltime, and the inventory is not even read. *)
Lemma unknown_cluster_with_bad_walltime :
  let st := boot [ok nodes_listing] in
  (list_clusters replay host st).1 = Return ["alakazam"; "bulbasaur"]
  /\ ("mewtwo" ∉ ["alakazam"; "bulbasaur"])
  /\ create_job replay host (Some ["mewtwo"]) 1 "25:00" "sleep 365d" None false st
     = (Return "Invalid walltime format. Use hh:mm:ss (e.g., '1:00:00')", st).
Proof.
  cbv zeta. split; [reflexivity|]. split; [|reflexivity].
  rewrite !elem_of_cons, elem_of_nil. intros [H|[H|H]]; done.
Qed.

(** C4 (amended), scenario C of the specification. *)
Lemma create_job_unknown_clusters_example :
  let st := boot [ok nodes_listing] in
  let st1 := {| env := []; log := [ssh "oarnodes -l"] |} in
  create_job replay host (Some ["alakazam"; "mewtwo"]) 1 "1:00:00" "sleep 365d"
    None false st
    = (Return "Invalid clusters: ['mewtwo']. Available: ['alakazam', 'bulbasaur']", st1).
Proof.
  pose proof (create_job_unknown_clusters replay host ["alakazam"; "mewtwo"] 1
                "1:00:00" "sleep 365d" None false (boot [ok nodes_listing])
                ["alakazam"; "bulbasaur"]
                {| env := []; log := [ssh "oarnodes -l"] |} "mewtwo") as H.
  apply H.
  - reflexivity.
  - reflexivity.
  - apply list_elem_of_further, list_elem_of_here.
  - rewrite !elem_of_cons, elem_of_nil. intros [E|[E|E]]; done.
Defined.

(** C5, as stated, fails for [list_machines]: a remote failure comes out
    of it as an exception, and so does an exceeded time limit. *)
Lemma list_machines_lets_failure_through :
  ~ Spec.returns_normally
      (list_machines replay host (boot [Exited 255 "" "Connection refused"]))
  /\ (list_machines replay host (boot [Exited 255 "" "Connection refused"])).1
     = Raise (ValueError "Command failed: Connection refused")
  /\ (list_machines replay host (boot [])).1
     = Raise (ValueError "Command timed out").
Proof.
  split; [|split; reflexivity]. intros [a Ha]. discriminate Ha.
Qed.

(** C6, as stated, fails on the message: it is the trimmed standard error
    behind a fixed label, not the trimmed standard error itself. *)
Lemma remote_failure_message_has_label :
  (run_ssh_command replay host "oardel 7" (boot [Exited 1 "" "boom"])).1
    = Raise (ValueError "Command failed: boom")
  /\ "Command failed: boom" <> strip "boom".
Proof. split; [reflexivity|discriminate]. Qed.

(** C7, on an output with a token and on one without. *)
Lemma create_job_reports_job_id_example :
  let st := boot [ok "OAR_JOB_ID=1234"] in
  create_job replay host None 1 "1:00:00" "sleep 365d" None false st
    = (Return ("Job created successfully with ID: 1234"
                 +:+ String LF "Output: OAR_JOB_ID=1234"),
       {| env := [];
          log := [ssh "oarsub -l nodes=1,walltime=1:00:00 'sleep 365d'"] |}).
Proof.
  pose proof (create_job_reports_job_id replay host None 1 "1:00:00" "sleep 365d"
                None false (boot [ok "OAR_JOB_ID=1234"]) "nodes=1,walltime=1:00:00"
                (boot [ok "OAR_JOB_ID=1234"]) "OAR_JOB_ID=1234"
                {| env := [];
                   log := [ssh "oarsub -l nodes=1,walltime=1:00:00 'sleep 365d'"] |}) as H.
  apply H; reflexivity.
Defined.

Example create_job_without_token :
  (create_job replay host None 1 "1:00:00" "sleep 365d" None false
     (boot [ok "Generate a job key..."])).1
  = Return "Job submission completed: Generate a job key...".
Proof. reflexivity. Qed.

(** C8, on a listing with two clusters and a host without separator. *)
Lemma list_clusters_example :
  let st := boot [ok nodes_listing] in
  let st1 := {| env := []; log := [ssh "oarnodes -l"] |} in
  let machines := ["alakazam-1"; "alakazam-2"; "bulbasaur-1"; "frontend"] in
  clusters_of machines = ["alakazam"; "bulbasaur"]
  /\ list_clusters replay host st = (Return (clusters_of machines), st1).
Proof.
  split; [reflexivity|].
  apply (list_clusters_sorted_distinct_prefixes replay host
           ["alakazam-1"; "alakazam-2"; "bulbasaur-1"; "frontend"]
           (boot [ok nodes_listing])
           {| env := []; log := [ssh "oarnodes -l"] |}).
  reflexivity.
Defined.

(** C9, as stated, fails for [list_my_jobs]: when the structured listing
    does not parse and the plain listing can be read again, the answer
    holds neither the decoder's message nor the text that did not parse. *)
Lemma list_my_jobs_answers_with_plain_listing :
  let st := boot [ok "Job id 42"; ok "junk"; ok "Job id 42"] in
  let msg := "Expecting value: line 1 column 1 (char 0)" in
  loads_braces "junk" = inl msg
  /\ exists d,
       (list_my_jobs replay host loads_braces st).1 = Return d
       /\ ~ Spec.degraded msg "junk" d.
Proof.
  cbv zeta. split; [reflexivity|]. eexists. split; [reflexivity|].
  intros (entries & [= <-] & _ & key & Hk).
  rewrite !elem_of_cons, elem_of_nil in Hk. destruct Hk as [H|[H|H]]; done.
Qed.

(** C9 (amended), on a parser that refuses the output. *)
Lemma structured_queries_degrade_example :
  let msg := "Expecting value: line 1 column 1 (char 0)" in
  list_all_jobs replay host loads_braces (boot [ok "junk"])
    = (Return (parse_error msg "junk"),
       {| env := []; log := [ssh "oarstat -J"] |}).
Proof.
  pose proof (structured_queries_degrade replay host loads_braces "junk"
                "Expecting value: line 1 column 1 (char 0)" eq_refl) as H.
  apply H. reflexivity.
Defined.

(** C10, at the node count [-3] and without clusters. *)
Lemma create_job_nodes_unchecked_example :
  log (create_job replay host None (-3) "1:00:00" "sleep 365d" None false (boot [])).2
    = [ssh "oarsub -l nodes=-3,walltime=1:00:00 'sleep 365d'"].
Proof.
  pose proof (create_job_nodes_unchecked replay host (-3) None "1:00:00"
                "sleep 365d" None false (boot []) (boot []) eq_refl eq_refl) as H.
  apply H.
Defined.

Example create_job_zero_nodes :
  log (create_job replay host (Some ["alakazam"]) 0 "1:00:00" "hostname" None false
         (boot [ok nodes_listing])).2
  = [ssh "oarnodes -l";
     ssh (Spec.constrained_line "{cluster='alakazam'}/nodes=0,walltime=1:00:00"
            None false "hostname")].
Proof. reflexivity. Qed.

End Scenarios.

(** ** Further properties: trimming and the machine listing *)

Section Listing.
Import Py.
Context {world : Type} (spawn : world -> invocation -> proc_result * world).
Context (host : string).

Local Abbreviation run := (run_ssh_command spawn host).

Lemma lstrip_all_space s : Spec.all_space s = true -> lstrip s = "".
Proof.
  induction s as [|x s IH]; cbn [Spec.all_space lstrip]; [done|].
  intros [Hx Hs]%andb_true_iff. rewrite Hx. auto.
Qed.

Lemma strip_all_space s : Spec.all_space s = true -> strip s = "".
Proof. intros H. unfold strip. by rewrite lstrip_all_space. Qed.

Lemma lstrip_fixed t :
  (forall c, Spec.first_char t = Some c -> isspace c = false) -> lstrip t = t.
Proof.
  destruct t as [|x t]; [done|]. intros H. cbn [lstrip].
  by rewrite (H x eq_refl).
Qed.

Lemma rstrip_fixed t :
  (forall c, Spec.last_char t = Some c -> isspace c = false) -> rstrip t = t.
Proof.
  induction t as [|x t IH]; [done|]. intros H. cbn [rstrip].
  destruct t as [|y t].
  - cbn [rstrip]. by rewrite (H x eq_refl).
  - rewrite IH; [done|]. intros c Hc. by apply H.
Qed.

Lemma strip_idempotent s : strip (strip s) = strip s.
Proof.
  destruct (strip_trimmed s) as (_ & Hf & Hl).
  unfold strip at 1. rewrite (lstrip_fixed _ Hf). by apply rstrip_fixed.
Qed.

Lemma contains_strip c s : contains c (strip s) = true -> contains c s = true.
Proof.
  destruct (strip_trimmed s) as ((before & rest & Hs & _) & _).
  intros H. rewrite Hs, !contains_app, H. by rewrite orb_true_r.
Qed.

Lemma split_pieces_no_sep sep s piece :
  piece ∈ split sep s -> contains sep piece = false.
Proof.
  revert piece. induction s as [|x s IH]; intros piece; cbn [split].
  - intros ->%list_elem_of_singleton. done.
  - destruct (Ascii.eqb x sep) eqn:E.
    + intros [->|H]%elem_of_cons; [done|by apply IH].
    + pose proof (split_not_nil sep s) as Hne.
      destruct (split sep s) as [|p ps]; [done|].
      intros [->|H]%elem_of_cons.
      * cbn [contains]. rewrite E. apply IH, list_elem_of_here.
      * by apply IH, list_elem_of_further.
Qed.

Lemma list_machines_lines st machines st' hostname :
  list_machines spawn host st = (Return machines, st') ->
  hostname ∈ machines ->
  hostname <> "" /\ contains LF hostname = false
  /\ (forall c, Spec.first_char hostname = Some c -> isspace c = false)
  /\ (forall c, Spec.last_char hostname = Some c -> isspace c = false).
Proof.
  rewrite list_machines_eq.
  destruct (run "oarnodes -l" st).1 as [output|e]; [|done]. intros [= <- _].
  intros (line & -> & Hl)%list_elem_of_fmap.
  apply list_elem_of_filter in Hl as [Ht Hl].
  destruct (strip_trimmed line) as (_ & Hf & Hlast).
  split; [by destruct (strip line)|]. split; [|done].
  destruct (contains LF (strip line)) eqn:E; [|done].
  apply contains_strip in E. by rewrite (split_pieces_no_sep LF _ _ Hl) in E.
Qed.


Lemma list_clusters_member st available st' c :
  list_clusters spawn host st = (Return available, st') ->
  c ∈ available ->
  exists hostname rest machines st1,
    list_machines spawn host st = (Return machines, st1)
    /\ hostname ∈ machines /\ hostname = c +:+ String "-" rest
    /\ contains "-" c = false.
Proof.
  rewrite list_clusters_eq.
  destruct (list_machines spawn host st) as [[machines|e] st1] eqn:Hm; [|done].
  cbn [fst snd]. intros [= <- _] (h & Hh & Hc & ->)%elem_of_clusters_of.
  destruct (split_head "-" h Hc) as (rest & Hs & Hn).
  by exists h, rest, machines, st1.
Qed.

(** X4: a name of the inventory that [list_clusters] returns holds no ['-']
    and no line feed and does not start with white space. *)
Theorem list_clusters_names_clean st available st' :
  list_clusters spawn host st = (Return available, st') ->
  forall c,
    c ∈ available ->
    contains "-" c = false /\ contains LF c = false
    /\ (forall x, Spec.first_char c = Some x -> isspace x = false).
Proof.
  intros Hl c Hc.
  destruct (list_clusters_member st available st' c Hl Hc)
    as (h & rest & machines & st1 & Hm & Hh & -> & Hn).
  destruct (list_machines_lines st machines st1 _ Hm Hh) as (_ & Hlf & Hf & _).
  split; [done|]. split.
  - rewrite contains_app in Hlf. by apply orb_false_iff in Hlf as [? _].
  - intros x Hx. apply Hf. by destruct c.
Qed.

End Listing.

(** ** Further properties: the operations on one job *)

Section JobOperations.
Import Py.
Context {world : Type} (spawn : world -> invocation -> proc_result * world).
Context (host : string).

Local Abbreviation run := (run_ssh_command spawn host).
Local Abbreviation ssh := (ssh_invocation host).

(** X5: [delete_job] runs [oardel <id>] once, whatever happens, and its
    answer is the deletion notice with the trimmed output on exit status
    zero, and otherwise the failure text with the trimmed standard error or
    with the time-out notice. *)
Theorem delete_job_report job_id st :
  let r := spawn (env st) (ssh ("oardel " +:+ str_int job_id)) in
  delete_job spawn host job_id st =
    (Return
       match r.1 with
       | Exited rc out err =>
           if (rc =? 0)%Z
           then "Job " +:+ str_int job_id +:+ " deletion requested: " +:+ strip out
           else "Failed to delete job " +:+ str_int job_id +:+ ": "
                  +:+ "Command failed: " +:+ strip err
       | TimedOut =>
           "Failed to delete job " +:+ str_int job_id +:+ ": " +:+ "Command timed out"
       end,
     {| env := r.2; log := (log st ++ [ssh ("oardel " +:+ str_int job_id)])%list |}).
Proof.
  cbv zeta. unfold delete_job, try_except, bind. rewrite run_ssh_command_eq.
  destruct (spawn (env st) _).1 as [rc out err|]; [|done].
  by destruct (rc =? 0)%Z.
Qed.

(** X6: with an accepted duration, [extend_walltime] runs
    [oarwalltime <id> +<duration>] once, followed by [ --force] exactly when
    [force] is set, and answers by the result of that process. *)
Theorem extend_walltime_report job_id additional_time (force : bool) st :
  Re.match_hms additional_time = true ->
  let command :=
    "oarwalltime " +:+ str_int job_id +:+ " +" +:+ additional_time
      +:+ (if force then " --force" else "") in
  let r := spawn (env st) (ssh command) in
  extend_walltime spawn host job_id additional_time force st =
    (Return
       match r.1 with
       | Exited rc out err =>
           if (rc =? 0)%Z
           then "Extended walltime for job " +:+ str_int job_id +:+ ": " +:+ strip out
           else "Failed to extend walltime for job " +:+ str_int job_id +:+ ": "
                  +:+ "Command failed: " +:+ strip err
       | TimedOut =>
           "Failed to extend walltime for job " +:+ str_int job_id +:+ ": "
             +:+ "Command timed out"
       end,
     {| env := r.2; log := (log st ++ [ssh command])%list |}).
Proof.
  intros Hw. cbv zeta. unfold extend_walltime, try_except, bind. rewrite Hw.
  cbn [negb].
  assert (Hc : (if force
                then ("oarwalltime " +:+ str_int job_id +:+ " +" +:+ additional_time)
                       +:+ " --force"
                else "oarwalltime " +:+ str_int job_id +:+ " +" +:+ additional_time)
               = "oarwalltime " +:+ str_int job_id +:+ " +" +:+ additional_time
                   +:+ (if force then " --force" else "")).
  { destruct force; [by rewrite !append_assoc|by rewrite append_nil_r]. }
  rewrite Hc, run_ssh_command_eq.
  destruct (spawn (env st) _).1 as [rc out err|]; [|done].
  by destruct (rc =? 0)%Z.
Qed.

(** X7: [get_walltime_status] runs [oarwalltime <id>] once and answers by
    the result of that process; it never changes the job. *)
Theorem get_walltime_status_report job_id st :
  let r := spawn (env st) (ssh ("oarwalltime " +:+ str_int job_id)) in
  get_walltime_status spawn host job_id st =
    (Return
       match r.1 with
       | Exited rc out err =>
           if (rc =? 0)%Z
           then "Walltime status for job " +:+ str_int job_id +:+ ": " +:+ strip out
           else "Failed to get walltime status for job " +:+ str_int job_id +:+ ": "
                  +:+ "Command failed: " +:+ strip err
       | TimedOut =>
           "Failed to get walltime status for job " +:+ str_int job_id +:+ ": "
             +:+ "Command timed out"
       end,
     {| env := r.2;
        log := (log st ++ [ssh ("oarwalltime " +:+ str_int job_id)])%list |}).
Proof.
  cbv zeta. unfold get_walltime_status, try_except, bind. rewrite run_ssh_command_eq.
  destruct (spawn (env st) _).1 as [rc out err|]; [|done].
  by destruct (rc =? 0)%Z.
Qed.

(** X8: when the submission of an accepted request fails, [create_job]
    still returns: the text is [Failed to create job: ] followed by the
    executor's message, and the job identifier is not looked for. *)
Theorem create_job_submission_failure clusters n w command name best_effort
    st st1 :
  Re.match_hms w = true ->
  clusters_known spawn host clusters st st1 ->
  let line := full_command clusters (resource_string clusters n w)
                name best_effort command in
  let r := spawn (env st1) (ssh line) in
  (forall out err, r.1 <> Exited 0 out err) ->
  create_job spawn host clusters n w command name best_effort st =
    (Return ("Failed to create job: "
               +:+ match r.1 with
                   | Exited _ _ err => "Command failed: " +:+ strip err
                   | TimedOut => "Command timed out"
                   end),
     {| env := r.2; log := (log st1 ++ [ssh line])%list |}).
Proof.
  intros Hw Hk line r Hf.
  pose proof (check_clusters_known spawn host clusters n w st st1 Hk) as Hc.
  rewrite (create_job_submits spawn host _ _ _ command name best_effort _ _ _ Hw Hc).
  fold line. fold r. destruct r.1 as [rc out err|]; [|done].
  destruct (rc =? 0)%Z eqn:E; [|done].
  apply Z.eqb_eq in E. subst rc. by destruct (Hf out err).
Qed.

(** X9: when clusters are named and the listing of the nodes fails,
    [create_job] answers with the executor's message behind
    [Failed to create job: ] and submits nothing. *)
Theorem create_job_inventory_failure clusters n w command name best_effort st :
  Re.match_hms w = true ->
  truthy_clusters clusters = true ->
  let r := spawn (env st) (ssh "oarnodes -l") in
  (forall out err, r.1 <> Exited 0 out err) ->
  create_job spawn host clusters n w command name best_effort st =
    (Return ("Failed to create job: "
               +:+ match r.1 with
                   | Exited _ _ err => "Command failed: " +:+ strip err
                   | TimedOut => "Command timed out"
                   end),
     {| env := r.2; log := (log st ++ [ssh "oarnodes -l"])%list |}).
Proof.
  intros Hw Ht r Hf. unfold create_job, try_except, bind. rewrite Hw. cbn [negb].
  unfold check_clusters. rewrite Ht. unfold bind.
  rewrite list_clusters_eq, list_machines_eq, run_ssh_command_eq. cbn [fst snd].
  fold r. destruct r.1 as [rc out err|]; [|done].
  destruct (rc =? 0)%Z eqn:E; [|done].
  apply Z.eqb_eq in E. subst rc. by destruct (Hf out err).
Qed.

(** X10: a requested cluster name with a ['-'] in it is never in the
    inventory, so such a request is answered with the list of the unknown
    names and is not submitted. *)
Theorem create_job_rejects_dashed_cluster cs n w command name best_effort
    st available st1 c :
  Re.match_hms w = true ->
  list_clusters spawn host st = (Return available, st1) ->
  c ∈ cs -> contains "-" c = true ->
  c ∈ invalid_clusters cs available
  /\ create_job spawn host (Some cs) n w command name best_effort st =
       (Return ("Invalid clusters: " +:+ repr_list (invalid_clusters cs available)
                  +:+ ". Available: " +:+ repr_list available), st1).
Proof.
  intros Hw Hl Hc Hd.
  assert (Hn : c ∉ available).
  { intros Ha.
    destruct (list_clusters_member spawn host st available st1 c Hl Ha)
      as (_ & _ & _ & _ & _ & _ & _ & Hno). congruence. }
  split; [by apply elem_of_invalid_clusters|].
  unfold create_job, try_except, bind. rewrite Hw. cbn [negb].
  by rewrite (check_clusters_unknown spawn host cs n w st available st1 c Hl Hc Hn).
Qed.

(** X11: [create_job] runs at most the listing of the nodes, which it runs
    only when clusters are named, and after it at most one submission. *)
Theorem create_job_calls clusters n w command name best_effort st :
  let listing := if truthy_clusters clusters then ["oarnodes -l"] else [] in
  let line := full_command clusters (resource_string clusters n w)
                name best_effort command in
  exists commands,
    ran host st (create_job spawn host clusters n w command name best_effort st).2
      commands
    /\ commands ∈ [[]; listing; (listing ++ [line])%list].
Proof.
  cbv zeta. unfold create_job, try_except, bind, ran.
  destruct (Re.match_hms w); cbn [negb].
  2: { exists []. split; [by rewrite app_nil_r|apply list_elem_of_here]. }
  unfold check_clusters. destruct (truthy_clusters clusters) eqn:Ht.
  - unfold bind. pose proof (list_clusters_log spawn host st) as Hlog.
    destruct (list_clusters spawn host st) as [[available|e] st1].
    + specialize (Hlog _ _ eq_refl).
      destruct (truthy_list (invalid_clusters _ available)).
      * exists ["oarnodes -l"]. split; [done|].
        apply list_elem_of_further, list_elem_of_here.
      * exists ["oarnodes -l"; full_command clusters (resource_string clusters n w)
                                 name best_effort command].
        split; [|do 2 apply list_elem_of_further; apply list_elem_of_here].
        cbn [ret].
        pose proof (run_ssh_command_log spawn host
          (full_command clusters (resource_string clusters n w) name best_effort command)
          st1) as Hr.
        destruct (run _ st1) as [[output|[msg|msg| |]] st2];
          cbn [snd ret except_ValueError] in *;
          rewrite Hr, Hlog, <- app_assoc; done.
    + specialize (Hlog _ _ eq_refl). exists ["oarnodes -l"].
      split; [|apply list_elem_of_further, list_elem_of_here].
      destruct e; cbn [snd ret except_ValueError]; done.
  - exists [full_command clusters (resource_string clusters n w)
              name best_effort command].
    split; [|do 2 apply list_elem_of_further; apply list_elem_of_here].
    cbn [ret].
    pose proof (run_ssh_command_log spawn host
      (full_command clusters (resource_string clusters n w) name best_effort command)
      st) as Hr.
    destruct (run _ st) as [[output|[msg|msg| |]] st2];
      cbn [snd ret except_ValueError] in *; done.
Qed.

(** X12: an empty list of clusters and an empty name are treated as
    absent ones. *)
Theorem create_job_empty_as_absent n w command name best_effort st :
  create_job spawn host (Some []) n w command name best_effort st
    = create_job spawn host None n w command name best_effort st
  /\ forall clusters,
       create_job spawn host clusters n w command (Some "") best_effort st
         = create_job spawn host clusters n w command None best_effort st.
Proof. split; [reflexivity|]. intros clusters. reflexivity. Qed.

End JobOperations.

(** ** Further properties: the structured queries *)

Section Queries.
Import Py.
Context {world : Type} (spawn : world -> invocation -> proc_result * world).
Context (host : string).
Context {json : Type} (json_loads : string -> string + json).

Local Abbreviation run := (run_ssh_command spawn host).
Local Abbreviation ssh := (ssh_invocation host).

(** X13: when the output of a structured query parses, the operation
    returns the parsed document as it is; for [list_my_jobs] that is after
    a probe that printed something. *)
Theorem structured_queries_pass_parsed output j :
  json_loads output = inr j ->
  (forall st st1,
     run "oarnodes -J" st = (Return output, st1) ->
     list_machines_detailed spawn host json_loads st = (Return (Parsed j), st1))
  /\ (forall job_id st st1,
        run ("oarstat -j " +:+ str_int job_id +:+ " -J") st = (Return output, st1) ->
        get_job_status spawn host json_loads job_id st = (Return (Parsed j), st1))
  /\ (forall st st1,
        run "oarstat -J" st = (Return output, st1) ->
        list_all_jobs spawn host json_loads st = (Return (Parsed j), st1))
  /\ (forall st regular_output st1 st2,
        run "oarstat -u" st = (Return regular_output, st1) ->
        regular_output <> "" ->
        run "oarstat -u -J" st1 = (Return output, st2) ->
        list_my_jobs spawn host json_loads st = (Return (Parsed j), st2)).
Proof.
  intros Hj. split; [|split; [|split]].
  - intros st st1 Hr. unfold list_machines_detailed, bind, try_except, loads.
    by rewrite Hr, Hj.
  - intros job_id st st1 Hr. unfold get_job_status, bind, try_except, loads.
    by rewrite Hr, Hj.
  - intros st st1 Hr. unfold list_all_jobs, bind, try_except, loads.
    by rewrite Hr, Hj.
  - intros st regular_output st1 st2 Hr Hne Hr2.
    assert (Hs : strip regular_output = regular_output).
    { revert Hr. rewrite run_ssh_command_eq.
      destruct (spawn _ _).1 as [rc out err|]; [|done].
      destruct (rc =? 0)%Z; [|done]. intros [= <- _]. apply strip_idempotent. }
    unfold list_my_jobs, bind, try_except, loads. rewrite Hr, Hs.
    destruct regular_output; [done|]. cbn [truthy_str negb]. by rewrite Hr2, Hj.
Qed.

(** X14: when the remote command of [get_job_status] or [list_all_jobs]
    fails, the answer is a dictionary with the one key [error], whose text
    ends with the executor's message; no raw output is in it. *)
Theorem job_queries_failure_report msg :
  (forall job_id st st1,
     run ("oarstat -j " +:+ str_int job_id +:+ " -J") st = (Raise (ValueError msg), st1) ->
     get_job_status spawn host json_loads job_id st =
       (Return (Built [("error", VStr ("Failed to get job status for "
                                         +:+ str_int job_id +:+ ": " +:+ msg))]), st1))
  /\ (forall st st1,
        run "oarstat -J" st = (Raise (ValueError msg), st1) ->
        list_all_jobs spawn host json_loads st =
          (Return (Built [("error", VStr ("Failed to list jobs: " +:+ msg))]), st1)).
Proof.
  split.
  - intros job_id st st1 Hr. unfold get_job_status, bind, try_except. by rewrite Hr.
  - intros st st1 Hr. unfold list_all_jobs, bind, try_except. by rewrite Hr.
Qed.

(** X15: [list_machines_detailed] has no clause for the executor's error:
    when the remote command fails, the [ValueError] of the executor comes
    out of the operation, and nothing is parsed. *)
Theorem list_machines_detailed_lets_failure_through st :
  let r := spawn (env st) (ssh "oarnodes -J") in
  (forall out err, r.1 <> Exited 0 out err) ->
  list_machines_detailed spawn host json_loads st =
    (Raise (ValueError match r.1 with
                       | Exited _ _ err => "Command failed: " +:+ strip err
                       | TimedOut => "Command timed out"
                       end),
     {| env := r.2; log := (log st ++ [ssh "oarnodes -J"])%list |}).
Proof.
  intros r Hf. unfold list_machines_detailed, bind. rewrite run_ssh_command_eq.
  fold r. destruct r.1 as [rc out err|]; [|done].
  destruct (rc =? 0)%Z eqn:E; [|done].
  apply Z.eqb_eq in E. subst rc. by destruct (Hf out err).
Qed.

(** X16: when the probe of [list_my_jobs] prints nothing but white space,
    the answer is the notice with an empty [jobs] dictionary, after that one
    remote command: the structured listing is not asked for. *)
Theorem list_my_jobs_empty_probe st out err :
  (spawn (env st) (ssh "oarstat -u")).1 = Exited 0 out err ->
  Spec.all_space out = true ->
  list_my_jobs spawn host json_loads st =
    (Return (Built [("message", VStr "No jobs found for current user");
                    ("jobs", VEmptyDict)]),
     {| env := (spawn (env st) (ssh "oarstat -u")).2;
        log := (log st ++ [ssh "oarstat -u"])%list |}).
Proof.
  intros Hp Hs. unfold list_my_jobs, bind, try_except.
  rewrite run_ssh_command_eq, Hp. cbn [Z.eqb].
  by rewrite (strip_all_space out Hs).
Qed.

(** X17: when the probe of [list_my_jobs] fails, or the structured listing
    after it, the answer is a dictionary with the one key [error], whose
    text ends with the executor's message. *)
Theorem list_my_jobs_failure_report msg :
  (forall st st1,
     run "oarstat -u" st = (Raise (ValueError msg), st1) ->
     list_my_jobs spawn host json_loads st =
       (Return (Built [("error", VStr ("Failed to list jobs for current user: "
                                         +:+ msg))]), st1))
  /\ (forall st regular_output st1 st2,
        run "oarstat -u" st = (Return regular_output, st1) ->
        regular_output <> "" ->
        run "oarstat -u -J" st1 = (Raise (ValueError msg), st2) ->
        list_my_jobs spawn host json_loads st =
          (Return (Built [("error", VStr ("Failed to list jobs for current user: "
                                            +:+ msg))]), st2)).
Proof.
  split.
  - intros st st1 Hr. unfold list_my_jobs, bind, try_except. by rewrite Hr.
  - intros st regular_output st1 st2 Hr Hne Hr2.
    assert (Hs : strip regular_output = regular_output).
    { revert Hr. rewrite run_ssh_command_eq.
      destruct (spawn _ _).1 as [rc out err|]; [|done].
      destruct (rc =? 0)%Z; [|done]. intros [= <- _]. apply strip_idempotent. }
    unfold list_my_jobs, bind, try_except. rewrite Hr, Hs.
    destruct regular_output; [done|]. cbn [truthy_str negb]. by rewrite Hr2.
Qed.

(** X18: [list_my_jobs] always runs the probe, then at most the structured
    listing, then at most the probe once more: never more than three
    remote commands, and none that changes a job. *)
Theorem list_my_jobs_calls st :
  exists commands,
    ran host st (list_my_jobs spawn host json_loads st).2 commands
    /\ commands ∈ [["oarstat -u"];
                   ["oarstat -u"; "oarstat -u -J"];
                   ["oarstat -u"; "oarstat -u -J"; "oarstat -u"]].
Proof.
  unfold list_my_jobs, try_except, bind, ran.
  pose proof (run_ssh_command_log spawn host "oarstat -u" st) as H1.
  destruct (run_ssh_command_cases spawn host "oarstat -u" st) as [[o1 E1]|[m1 E1]];
    destruct (run "oarstat -u" st) as [r1 st1]; cbn [fst snd] in *; subst r1.
  2: { exists ["oarstat -u"]. split; [done|apply list_elem_of_here]. }
  destruct (negb _).
  { exists ["oarstat -u"]. split; [done|apply list_elem_of_here]. }
  pose proof (run_ssh_command_log spawn host "oarstat -u -J" st1) as H2.
  destruct (run_ssh_command_cases spawn host "oarstat -u -J" st1) as [[o2 E2]|[m2 E2]];
    destruct (run "oarstat -u -J" st1) as [r2 st2]; cbn [fst snd] in *; subst r2.
  2: { exists ["oarstat -u"; "oarstat -u -J"].
       split; [|apply list_elem_of_further, list_elem_of_here].
       cbn [except_ValueError ret snd]. rewrite H2, H1, <- app_assoc. done. }
  unfold loads. destruct (json_loads o2) as [msg|j].
  - exists ["oarstat -u"; "oarstat -u -J"; "oarstat -u"].
    split; [|do 2 apply list_elem_of_further; apply list_elem_of_here].
    cbn [raise].
    pose proof (run_ssh_command_log spawn host "oarstat -u" st2) as H3.
    destruct (run_ssh_command_cases spawn host "oarstat -u" st2) as [[o3 E3]|[m3 E3]];
      destruct (run "oarstat -u" st2) as [r3 st3]; cbn [fst snd] in *; subst r3;
      cbn [except_ValueError ret snd]; rewrite H3, H2, H1, <- !app_assoc; done.
  - exists ["oarstat -u"; "oarstat -u -J"].
    split; [|apply list_elem_of_further, list_elem_of_here].
    cbn [ret snd]. rewrite H2, H1, <- app_assoc. done.
Qed.

End Queries.

(** ** Further properties: nothing but [ssh] is ever started *)

Create HintDb py_ssh.

Section OnlySsh.
Import Py.
Context {world : Type} (spawn : world -> invocation -> proc_result * world).
Context (host : string).
Context {json : Type} (json_loads : string -> string + json).

Local Abbreviation only_ssh := (runs_only_ssh (world := world) host).

Lemma ran_refl (st : @state world) : ran host st st [].
Proof. unfold ran. by rewrite app_nil_r. Qed.

Lemma ran_trans (st st1 st2 : @state world) c1 c2 :
  ran host st st1 c1 -> ran host st1 st2 c2 -> ran host st st2 (c1 ++ c2)%list.
Proof. unfold ran. intros H1 H2. by rewrite H2, H1, fmap_app, app_assoc. Qed.

Lemma only_ssh_ret {A} (a : A) : only_ssh (ret a).
Proof. intros st. exists []. apply ran_refl. Qed.

Lemma only_ssh_raise {A} e : only_ssh (raise e : M A).
Proof. intros st. exists []. apply ran_refl. Qed.

Lemma only_ssh_bind {A B} (m : M A) (k : A -> M B) :
  only_ssh m -> (forall a, only_ssh (k a)) -> only_ssh (bind m k).
Proof.
  intros Hm Hk st. unfold bind. destruct (Hm st) as [c1 H1].
  destruct (m st) as [[a|e] st1]; cbn [snd] in *; [|by exists c1].
  destruct (Hk a st1) as [c2 H2]. exists (c1 ++ c2)%list. by apply (ran_trans _ st1).
Qed.

Lemma only_ssh_try {A} (m : M A) handler :
  only_ssh m -> (forall e h, handler e = Some h -> only_ssh h) ->
  only_ssh (try_except m handler).
Proof.
  intros Hm Hh st. unfold try_except. destruct (Hm st) as [c1 H1].
  destruct (m st) as [[a|e] st1]; cbn [snd] in *; [by exists c1|].
  destruct (handler e) as [h|] eqn:E; [|by exists c1].
  destruct (Hh e h E st1) as [c2 H2]. exists (c1 ++ c2)%list. by apply (ran_trans _ st1).
Qed.

Lemma only_ssh_except {A} (m : M A) (h : string -> M A) :
  only_ssh m -> (forall msg, only_ssh (h msg)) ->
  only_ssh (try_except m (except_ValueError h)).
Proof.
  intros Hm Hh. apply only_ssh_try; [done|].
  intros [msg|msg| |] h'; cbn [except_ValueError]; try done; intros [= <-]; apply Hh.
Qed.

Lemma only_ssh_run command : only_ssh (run_ssh_command spawn host command).
Proof. intros st. exists [command]. apply run_ssh_command_log. Qed.

Lemma only_ssh_loads output : only_ssh (loads json_loads output).
Proof.
  unfold loads. destruct (json_loads output); [apply only_ssh_raise|apply only_ssh_ret].
Qed.

Lemma only_ssh_parse output :
  only_ssh
    (try_except (loads json_loads output)
       (fun e => match e with
                 | JSONDecodeError msg => Some (ret (parse_error msg output))
                 | _ => None
                 end)).
Proof.
  apply only_ssh_try; [apply only_ssh_loads|].
  intros [| | |] h; try done. intros [= <-]. apply only_ssh_ret.
Qed.

#[local] Hint Resolve only_ssh_ret only_ssh_raise only_ssh_run only_ssh_loads
  only_ssh_parse : py_ssh.

Lemma only_ssh_list_machines : only_ssh (list_machines spawn host).
Proof. apply only_ssh_bind; auto with py_ssh. Qed.

Lemma only_ssh_list_clusters : only_ssh (list_clusters spawn host).
Proof. apply only_ssh_bind; [apply only_ssh_list_machines|auto with py_ssh]. Qed.

Lemma only_ssh_create_job clusters n w command name best_effort :
  only_ssh (create_job spawn host clusters n w command name best_effort).
Proof.
  apply only_ssh_except; [|auto with py_ssh].
  destruct (negb _); [auto with py_ssh|].
  apply only_ssh_bind.
  - unfold check_clusters. destruct (truthy_clusters clusters); [|auto with py_ssh].
    apply only_ssh_bind; [apply only_ssh_list_clusters|].
    intros available. destruct (truthy_list _); auto with py_ssh.
  - intros [rejection|resource]; [auto with py_ssh|].
    apply only_ssh_bind; auto with py_ssh.
Qed.

Lemma only_ssh_list_my_jobs : only_ssh (list_my_jobs spawn host json_loads).
Proof.
  apply only_ssh_except; [|auto with py_ssh].
  apply only_ssh_bind; [auto with py_ssh|]. intros regular_output.
  destruct (negb _); [auto with py_ssh|].
  apply only_ssh_bind; [auto with py_ssh|]. intros output.
  apply only_ssh_try; [auto with py_ssh|].
  intros [| | |] h; try done. intros [= <-].
  apply only_ssh_except; [|auto with py_ssh].
  apply only_ssh_bind; auto with py_ssh.
Qed.

(** X19: whatever the ten operations start, they start through the
    executor: every process is [ssh] to the configured host with one
    command line, with [check=True] and the time limit of 30, and the log
    of an operation only grows. *)
Theorem operations_run_only_ssh :
  only_ssh (list_machines spawn host)
  /\ only_ssh (list_machines_detailed spawn host json_loads)
  /\ only_ssh (list_clusters spawn host)
  /\ (forall job_id, only_ssh (delete_job spawn host job_id))
  /\ (forall job_id additional_time force,
        only_ssh (extend_walltime spawn host job_id additional_time force))
  /\ (forall job_id, only_ssh (get_walltime_status spawn host job_id))
  /\ (forall clusters n w command name best_effort,
        only_ssh (create_job spawn host clusters n w command name best_effort))
  /\ (forall job_id, only_ssh (get_job_status spawn host json_loads job_id))
  /\ only_ssh (list_all_jobs spawn host json_loads)
  /\ only_ssh (list_my_jobs spawn host json_loads)
  /\ (forall command,
        args (ssh_invocation host command) = ["ssh"; host; command]
        /\ check (ssh_invocation host command) = true
        /\ timeout (ssh_invocation host command) = 30%Z).
Proof.
  split; [apply only_ssh_list_machines|].
  split; [apply only_ssh_bind; auto with py_ssh|].
  split; [apply only_ssh_list_clusters|].
  split; [intros; apply only_ssh_except; [apply only_ssh_bind|]; auto with py_ssh|].
  split.
  { intros. apply only_ssh_except; [|auto with py_ssh].
    destruct (negb _); [auto with py_ssh|]. apply only_ssh_bind; auto with py_ssh. }
  split; [intros; apply only_ssh_except; [apply only_ssh_bind|]; auto with py_ssh|].
  split; [apply only_ssh_create_job|].
  split; [intros; apply only_ssh_except; [apply only_ssh_bind|]; auto with py_ssh|].
  split; [apply only_ssh_except; [apply only_ssh_bind|]; auto with py_ssh|].
  split; [apply only_ssh_list_my_jobs|]. done.
Qed.

End OnlySsh.

(** ** Further scenarios on the replaying transport *)

Section MoreScenarios.
Import Py Fake.

Local Abbreviation ssh := (ssh_invocation host).


(** X4, on the inventory of the same listing. *)
Lemma list_clusters_names_clean_example :
  Forall (fun c => contains "-" c = false /\ contains LF c = false)
    ["alakazam"; "bulbasaur"].
Proof.
  apply Forall_forall. intros c Hc.
  destruct (list_clusters_names_clean replay host (boot [ok nodes_listing])
              ["alakazam"; "bulbasaur"]
              {| env := []; log := [ssh "oarnodes -l"] |} eq_refl c Hc)
    as (Hd & Hlf & _).
  by split.
Defined.

(** X6, with the flag set. *)
Lemma extend_walltime_report_example :
  extend_walltime replay host 42 "1:30:00" true (boot [ok "Accepted"])
    = (Return "Extended walltime for job 42: Accepted",
       {| env := []; log := [ssh "oarwalltime 42 +1:30:00 --force"] |}).
Proof.
  apply (extend_walltime_report replay host 42 "1:30:00" true (boot [ok "Accepted"])).
  reflexivity.
Defined.

(** X8, on a submission that the scheduler refuses. *)
Lemma create_job_submission_failure_example :
  create_job replay host None 1 "1:00:00" "sleep 365d" None false
    (boot [Exited 3 "" "Admission rule refused the job"])
  = (Return "Failed to create job: Command failed: Admission rule refused the job",
     {| env := [];
        log := [ssh "oarsub -l nodes=1,walltime=1:00:00 'sleep 365d'"] |}).
Proof.
  apply (create_job_submission_failure replay host None 1 "1:00:00" "sleep 365d"
           None false (boot [Exited 3 "" "Admission rule refused the job"])
           (boot [Exited 3 "" "Admission rule refused the job"]));
    [reflexivity|reflexivity|]. intros out err. discriminate.
Defined.

(** X9, on a listing that exceeds the time limit. *)
Lemma create_job_inventory_failure_example :
  create_job replay host (Some ["alakazam"]) 1 "1:00:00" "sleep 365d" None false
    (boot [])
  = (Return "Failed to create job: Command timed out",
     {| env := []; log := [ssh "oarnodes -l"] |}).
Proof.
  apply (create_job_inventory_failure replay host (Some ["alakazam"]) 1 "1:00:00"
           "sleep 365d" None false (boot []));
    [reflexivity|reflexivity|]. intros out err. discriminate.
Defined.

(** X10, on a request that names a host instead of a cluster. *)
Lemma create_job_rejects_dashed_cluster_example :
  create_job replay host (Some ["alakazam-1"]) 1 "1:00:00" "sleep 365d" None false
    (boot [ok nodes_listing])
  = (Return "Invalid clusters: ['alakazam-1']. Available: ['alakazam', 'bulbasaur']",
     {| env := []; log := [ssh "oarnodes -l"] |}).
Proof.
  apply (create_job_rejects_dashed_cluster replay host ["alakazam-1"] 1 "1:00:00"
           "sleep 365d" None false (boot [ok nodes_listing])
           ["alakazam"; "bulbasaur"] {| env := []; log := [ssh "oarnodes -l"] |}
           "alakazam-1");
    [reflexivity|reflexivity|apply list_elem_of_here|reflexivity].
Defined.

(** X13, on the document that the test parser accepts. *)
Lemma structured_queries_pass_parsed_example :
  get_job_status replay host loads_braces 42 (boot [ok "{}"])
    = (Return (Parsed tt), {| env := []; log := [ssh "oarstat -j 42 -J"] |}).
Proof.
  pose proof (structured_queries_pass_parsed replay host loads_braces "{}" tt
                eq_refl) as (_ & H & _).
  apply H. reflexivity.
Defined.

(** X14, on a job that the scheduler does not know. *)
Lemma job_queries_failure_report_example :
  get_job_status replay host loads_braces 42 (boot [Exited 1 "" "Job 42 not found"])
    = (Return (Built [("error", VStr "Failed to get job status for 42: Command failed: Job 42 not found")]),
       {| env := []; log := [ssh "oarstat -j 42 -J"] |}).
Proof.
  pose proof (job_queries_failure_report replay host loads_braces
                "Command failed: Job 42 not found") as [H _].
  apply H. reflexivity.
Defined.

(** X15, on a host that cannot be reached. *)
Lemma list_machines_detailed_failure_example :
  list_machines_detailed replay host loads_braces
    (boot [Exited 255 "" "Connection refused"])
  = (Raise (ValueError "Command failed: Connection refused"),
     {| env := []; log := [ssh "oarnodes -J"] |}).
Proof.
  apply (list_machines_detailed_lets_failure_through replay host loads_braces
           (boot [Exited 255 "" "Connection refused"])).
  intros out err. discriminate.
Defined.

(** X16, on a probe that prints one line feed. *)
Lemma list_my_jobs_empty_probe_example :
  list_my_jobs replay host loads_braces (boot [ok (String LF ""); ok "{}"])
    = (Return (Built [("message", VStr "No jobs found for current user");
                      ("jobs", VEmptyDict)]),
       {| env := [ok "{}"]; log := [ssh "oarstat -u"] |}).
Proof.
  apply (list_my_jobs_empty_probe replay host loads_braces
           (boot [ok (String LF ""); ok "{}"]) (String LF "") "");
    reflexivity.
Defined.

(** X17, on a structured listing that fails after a probe that worked. *)
Lemma list_my_jobs_failure_report_example :
  list_my_jobs replay host loads_braces (boot [ok "Job id 42"])
    = (Return (Built [("error", VStr "Failed to list jobs for current user: Command timed out")]),
       {| env := []; log := [ssh "oarstat -u"; ssh "oarstat -u -J"] |}).
Proof.
  pose proof (list_my_jobs_failure_report replay host loads_braces
                "Command timed out") as [_ H].
  apply (H (boot [ok "Job id 42"]) "Job id 42"
           {| env := []; log := [ssh "oarstat -u"] |}); [reflexivity|done|reflexivity].
Defined.

End MoreScenarios.
